(** * PropertyRadar contact finder: address parsing, fuzzy extraction,
      contact normalisation and the enrichment pipeline

    A shallow embedding of [final_working_script.py] (and of the report
    loop of [final_property_radar_phone_finder.py]) together with the
    properties stated about them.

    Conventions of the embedding.
    - A Python [str] is a [string]; a character is an [ascii], read as a
      Unicode code point below 256.  The character predicates below give
      Python's answers on that range.
    - A decoded JSON document is a [json] tree; a dict is the list of its
      entries in iteration order.
    - Python's [set] is a [gset string]; [elements] stands for the
      (unspecified) iteration order of a set, so statements about results
      that went through a set are made about membership.
    - An HTTP call is a transition of an abstract [World]; every function
      that talks to the network returns its result together with the new
      world and the list of requests it issued, in order. *)

From Stdlib Require Import Ascii String NArith ZArith QArith DecimalString.
From stdpp Require Import base gmap sets list strings.

Local Open Scope stdpp_scope.

(* ===================================================================== *)
(** ** Characters and strings *)
(* ===================================================================== *)

Module Py.

Definition code (c : ascii) : N := N_of_ascii c.

Definition between (lo hi : N) (c : ascii) : bool :=
  ((lo <=? code c) && (code c <=? hi))%N.

(** [re]'s [\d] on a [str] pattern: the decimal digits. *)
Definition re_digit (c : ascii) : bool := between 48 57 c.

(** [str.isdigit]: the decimal digits and the superscripts U+00B2,
    U+00B3 and U+00B9. *)
Definition isdigit (c : ascii) : bool :=
  re_digit c || (code c =? 178)%N || (code c =? 179)%N || (code c =? 185)%N.

(** [str.isspace], which is also [re]'s [\s] and what [str.strip]
    removes. *)
Definition isspace (c : ascii) : bool :=
  between 9 13 c || between 28 32 c || (code c =? 133)%N || (code c =? 160)%N.

(** The class [[A-Za-z]]. *)
Definition re_alpha (c : ascii) : bool := between 65 90 c || between 97 122 c.

(** [re]'s [.] without DOTALL. *)
Definition re_dot (c : ascii) : bool := negb (code c =? 10)%N.

Definition lower_char (c : ascii) : ascii :=
  if between 65 90 c || between 192 214 c || between 216 222 c
  then ascii_of_N (code c + 32) else c.

(** [str.upper] on a character of [[A-Za-z]] (the only place where the
    program upper-cases). *)
Definition upper_char (c : ascii) : ascii :=
  if between 97 122 c then ascii_of_N (code c - 32) else c.

Fixpoint map_string (f : ascii -> ascii) (s : string) : string :=
  match s with
  | EmptyString => EmptyString
  | String c s' => String (f c) (map_string f s')
  end.

Definition lower : string -> string := map_string lower_char.
Definition upper : string -> string := map_string upper_char.

Fixpoint filter_string (p : ascii -> bool) (s : string) : string :=
  match s with
  | EmptyString => EmptyString
  | String c s' => if p c then String c (filter_string p s') else filter_string p s'
  end.

Fixpoint any_char (p : ascii -> bool) (s : string) : bool :=
  match s with
  | EmptyString => false
  | String c s' => p c || any_char p s'
  end.

Fixpoint all_char (p : ascii -> bool) (s : string) : bool :=
  match s with
  | EmptyString => true
  | String c s' => p c && all_char p s'
  end.

Definition is_empty (s : string) : bool :=
  match s with EmptyString => true | _ => false end.

Fixpoint lstrip (s : string) : string :=
  match s with
  | EmptyString => EmptyString
  | String c s' => if isspace c then lstrip s' else s
  end.

Fixpoint rstrip (s : string) : string :=
  match s with
  | EmptyString => EmptyString
  | String c s' =>
      let r := rstrip s' in
      if isspace c && is_empty r then EmptyString else String c r
  end.

(** [s.strip()] *)
Definition strip (s : string) : string := rstrip (lstrip s).

(** [needle in hay] *)
Fixpoint contains (needle hay : string) : bool :=
  String.prefix needle hay ||
  match hay with
  | EmptyString => false
  | String _ hay' => contains needle hay'
  end.

(** [s.split(sep)] for a one-character separator: never empty. *)
Fixpoint split (sep : ascii) (s : string) : list string :=
  match s with
  | EmptyString => [EmptyString]
  | String c s' =>
      let r := split sep s' in
      if Ascii.eqb c sep then EmptyString :: r
      else match r with
           | p :: ps => String c p :: ps
           | [] => [String c EmptyString]
           end
  end.

(** [s[i:j]] for [0 <= i <= j]. *)
Definition slice (i j : nat) (s : string) : string := String.substring i (j - i) s.

(** [s[i:]] *)
Fixpoint slice_from (i : nat) (s : string) : string :=
  match i, s with
  | O, _ => s
  | S i', String _ s' => slice_from i' s'
  | S _, EmptyString => EmptyString
  end.

(** [str(i)] for a list index. *)
Definition str_nat (n : nat) : string := NilEmpty.string_of_uint (Nat.to_uint n).

End Py.

(* ===================================================================== *)
(** ** A backtracking matcher for the regular expressions of the program *)
(* ===================================================================== *)

Module Re.

(** The fragment of Python's [re] syntax that the program uses.  The
    matcher tries alternatives in Python's order: a greedy repetition
    takes as much as it can first, a lazy one as little. *)
Inductive regex : Type :=
| Class (p : ascii -> bool)            (* one character of a class *)
| Rep (n : nat) (p : ascii -> bool)    (* p{n} *)
| Plus (p : ascii -> bool)             (* p+   *)
| PlusLazy (p : ascii -> bool)         (* p+?  *)
| Opt (r : regex)                      (* r?   *)
| Seq (r1 r2 : regex)
| Group (r : regex).                   (* ( r ), numbered by closing order *)

(** Captured groups, the last closed group first. *)
Definition captures := list string.

Section Matcher.
Context {A : Type}.
Definition cont := string -> captures -> option A.

Fixpoint m_rep (p : ascii -> bool) (n : nat) (s : string) (caps : captures)
    (k : cont) : option A :=
  match n with
  | O => k s caps
  | S n' =>
      match s with
      | String c s' => if p c then m_rep p n' s' caps k else None
      | EmptyString => None
      end
  end.

Fixpoint m_plus (p : ascii -> bool) (s : string) (caps : captures)
    (k : cont) : option A :=
  match s with
  | String c s' =>
      if p c then
        match m_plus p s' caps k with
        | Some r => Some r
        | None => k s' caps
        end
      else None
  | EmptyString => None
  end.

Fixpoint m_plus_lazy (p : ascii -> bool) (s : string) (caps : captures)
    (k : cont) : option A :=
  match s with
  | String c s' =>
      if p c then
        match k s' caps with
        | Some r => Some r
        | None => m_plus_lazy p s' caps k
        end
      else None
  | EmptyString => None
  end.

(** The text between the start [s] of a group and the rest [s'] left
    when it closes. *)
Definition consumed (s s' : string) : string :=
  String.substring 0 (String.length s - String.length s') s.

Fixpoint m (r : regex) (s : string) (caps : captures) (k : cont) : option A :=
  match r with
  | Class p => m_rep p 1 s caps k
  | Rep n p => m_rep p n s caps k
  | Plus p => m_plus p s caps k
  | PlusLazy p => m_plus_lazy p s caps k
  | Opt r' =>
      match m r' s caps k with
      | Some x => Some x
      | None => k s caps
      end
  | Seq r1 r2 => m r1 s caps (fun s' caps' => m r2 s' caps' k)
  | Group r' => m r' s caps (fun s' caps' => k s' (consumed s s' :: caps'))
  end.
End Matcher.

(** [re.match(r, s)]: the groups of the first successful match attempt
    anchored at the start of [s], in order [group(1), group(2), ...]. *)
Definition re_match (r : regex) (s : string) : option (list string) :=
  m r s [] (fun _ caps => Some (rev caps)).

(** [re.search(r, s)]: the leftmost position at which [re_match]
    succeeds. *)
Fixpoint re_search (r : regex) (s : string) : option (list string) :=
  match re_match r s with
  | Some g => Some g
  | None =>
      match s with
      | EmptyString => None
      | String _ s' => re_search r s'
      end
  end.

Definition is_char (c : ascii) : ascii -> bool := Ascii.eqb c.
Definition is_sep (c : ascii) : bool := Ascii.eqb c "-" || Ascii.eqb c ".".

(** [([A-Za-z]{2})\s+(\d{5})] *)
Definition state_zip_re : regex :=
  Seq (Group (Rep 2 Py.re_alpha))
      (Seq (Plus Py.isspace) (Group (Rep 5 Py.re_digit))).

(** [(.+?),?\s+([A-Za-z]{2})\s+(\d{5})] *)
Definition city_state_zip_re : regex :=
  Seq (Group (PlusLazy Py.re_dot))
      (Seq (Opt (Class (is_char ",")))
           (Seq (Plus Py.isspace)
                (Seq (Group (Rep 2 Py.re_alpha))
                     (Seq (Plus Py.isspace) (Group (Rep 5 Py.re_digit)))))).

(** [(\d{3}[-.]?\d{3}[-.]?\d{4})] *)
Definition phone_re : regex :=
  Group (Seq (Rep 3 Py.re_digit)
             (Seq (Opt (Class is_sep))
                  (Seq (Rep 3 Py.re_digit)
                       (Seq (Opt (Class is_sep)) (Rep 4 Py.re_digit))))).

End Re.

(* ===================================================================== *)
(** ** Address parser ([parse_address]) *)
(* ===================================================================== *)

Record AddressComponents : Type := mkAddress {
  street : string;
  city : string;
  state : string;
  zip : string
}.

(** [parts[i]], used only under a length test that makes it defined. *)
Definition part (parts : list string) (i : nat) : string := nth i parts EmptyString.

(** [parse_address(full_address)]; [None] is Python's [None]. *)
Definition parse_address (full_address : string) : option AddressComponents :=
  let parts := Py.split "," full_address in
  let standard :=
    if (3 <=? length parts)%nat then
      let street := Py.strip (part parts 0) in
      let city := Py.strip (part parts 1) in
      let state_zip := Py.strip (part parts 2) in
      match Re.re_match Re.state_zip_re state_zip with
      | Some [g1; g2] => Some (mkAddress street city (Py.upper g1) g2)
      | _ => None
      end
    else None in
  match standard with
  | Some components => Some components
  | None =>
      if (2 <=? length parts)%nat then
        let street := Py.strip (part parts 0) in
        let city_state_zip := Py.strip (part parts 1) in
        match Re.re_match Re.city_state_zip_re city_state_zip with
        | Some [g1; g2; g3] => Some (mkAddress street (Py.strip g1) (Py.upper g2) g3)
        | _ => None
        end
      else None
  end.

(** The algorithm as the specification words it (section 4.1), segments
    taken trimmed as in its examples: the combined city-state-zip pattern
    is tried on inputs of exactly two segments only. *)
Definition parse_reference (raw : string) : option AddressComponents :=
  match map Py.strip (Py.split "," raw) with
  | s0 :: s1 :: s2 :: _ =>
      match Re.re_match Re.state_zip_re s2 with
      | Some [g1; g2] => Some (mkAddress s0 s1 (Py.upper g1) g2)
      | _ => None
      end
  | [s0; s1] =>
      match Re.re_match Re.city_state_zip_re s1 with
      | Some [g1; g2; g3] => Some (mkAddress s0 (Py.strip g1) (Py.upper g2) g3)
      | _ => None
      end
  | _ => None
  end.

(** The same algorithm with the second case widened to what the code
    does: the combined pattern is tried on segment 1 whenever there are at
    least two segments and the three-segment form did not succeed. *)
Definition parse_fallthrough (raw : string) : option AddressComponents :=
  let combined s0 s1 :=
    match Re.re_match Re.city_state_zip_re s1 with
    | Some [g1; g2; g3] => Some (mkAddress s0 (Py.strip g1) (Py.upper g2) g3)
    | _ => None
    end in
  match map Py.strip (Py.split "," raw) with
  | s0 :: s1 :: s2 :: _ =>
      match Re.re_match Re.state_zip_re s2 with
      | Some [g1; g2] => Some (mkAddress s0 s1 (Py.upper g1) g2)
      | _ => combined s0 s1
      end
  | [s0; s1] => combined s0 s1
  | _ => None
  end.

(* ===================================================================== *)
(** ** Board items ([extract_address]) *)
(* ===================================================================== *)

(** A board item as the address source returns it: a name and a list of
    columns whose display text may be null. *)
Record Column : Type := mkColumn {
  column_id : string;
  column_text : option string
}.

Record Item : Type := mkItem {
  item_id : string;
  item_name : string;
  column_values : list Column
}.

Definition address_indicators : list string :=
  ["st"; "rd"; "ave"; "blvd"; "ln"; "dr"; "way"; "ct"; "pl"].

(** [any(indicator in text.lower() for indicator in address_indicators)] *)
Definition has_address_indicator (text : string) : bool :=
  existsb (fun indicator => Py.contains indicator (Py.lower text)) address_indicators.

(** The loop over [column_values]: the first non-empty text with an
    indicator. *)
Fixpoint column_address (columns : list Column) : option string :=
  match columns with
  | [] => None
  | column :: rest =>
      match column_text column with
      | Some text =>
          if negb (Py.is_empty text) && has_address_indicator text
          then Some text
          else column_address rest
      | None => column_address rest
      end
  end.

Definition extract_address (item : Item) : option string :=
  let name := item_name item in
  if String.eqb name "New address" then None
  else if has_address_indicator name then Some name
  else match column_address (column_values item) with
       | Some text => Some text
       | None => if Py.is_empty name then None else Some name
       end.

(* ===================================================================== *)
(** ** JSON values *)
(* ===================================================================== *)

Local Unset Elimination Schemes.
Inductive json : Type :=
| JNull
| JBool (b : bool)
| JNum (q : Q)
| JStr (s : string)
| JList (l : list json)
| JDict (d : list (string * json)).
Local Set Elimination Schemes.

(** Structural induction over a document, with the hypothesis available
    for every element of a list and every value of a dict. *)
Fixpoint json_induction (P : json -> Prop)
    (HNull : P JNull) (HBool : forall b, P (JBool b)) (HNum : forall q, P (JNum q))
    (HStr : forall s, P (JStr s))
    (HList : forall l, Forall P l -> P (JList l))
    (HDict : forall d, Forall (fun kv => P kv.2) d -> P (JDict d))
    (v : json) {struct v} : P v :=
  let rec := json_induction P HNull HBool HNum HStr HList HDict in
  match v with
  | JNull => HNull
  | JBool b => HBool b
  | JNum q => HNum q
  | JStr s => HStr s
  | JList l =>
      HList l ((fix all (l : list json) : Forall P l :=
                  match l with
                  | [] => List.Forall_nil P
                  | x :: l' => @List.Forall_cons _ P x l' (rec x) (all l')
                  end) l)
  | JDict d =>
      HDict d ((fix all (d : list (string * json)) : Forall (fun kv => P kv.2) d :=
                  match d with
                  | [] => List.Forall_nil _
                  | (k, x) :: d' =>
                      @List.Forall_cons _ (fun kv => P kv.2) (k, x) d' (rec x) (all d')
                  end) d)
  end.

(** Python truthiness of a decoded JSON value. *)
Definition truthy (v : json) : bool :=
  match v with
  | JNull => false
  | JBool b => b
  | JNum q => negb (Qeq_bool q 0)
  | JStr s => negb (Py.is_empty s)
  | JList l => match l with [] => false | _ => true end
  | JDict d => match d with [] => false | _ => true end
  end.

(** [isinstance(v, (dict, list))] *)
Definition is_container (v : json) : bool :=
  match v with
  | JList _ | JDict _ => true
  | _ => false
  end.

(** [d.get(key)] on the entries of a dict; [None] when the key is absent. *)
Fixpoint dict_get (key : string) (d : list (string * json)) : option json :=
  match d with
  | [] => None
  | (k, v) :: d' => if String.eqb k key then Some v else dict_get key d'
  end.

(** [d.get(key, default)] *)
Definition dict_get_default (key : string) (default : json) (d : list (string * json)) : json :=
  match dict_get key d with
  | Some v => v
  | None => default
  end.

(* ===================================================================== *)
(** ** Fuzzy field extractor *)
(* ===================================================================== *)

(** What one traversal leaves behind: the strings appended to the
    enclosing list ([phones] or [emails]), in order, and the [path]
    argument of every invocation of the recursive function, in call
    order. *)
Record walk : Type := mkWalk {
  found : list string;
  calls : list string
}.

Definition walk_nil : walk := mkWalk [] [].
Definition walk_app (a b : walk) : walk :=
  mkWalk (found a ++ found b) (calls a ++ calls b).
Definition walk_call (path : string) (w : walk) : walk :=
  mkWalk (found w) (path :: calls w).
Definition walk_found (xs : list string) : walk := mkWalk xs [].

(** [f"{path}.{key}" if path else key] *)
Definition key_path (path key : string) : string :=
  if Py.is_empty path then key else path +:+ "." +:+ key.

(** [f"{path}[{i}]" if path else f"[{i}]"] *)
Definition index_path (path : string) (i : nat) : string :=
  if Py.is_empty path then "[" +:+ Py.str_nat i +:+ "]"
  else path +:+ "[" +:+ Py.str_nat i +:+ "]".

(** [any(indicator in key.lower() for indicator in indicators)] *)
Definition key_matches (indicators : list string) (key : string) : bool :=
  existsb (fun indicator => Py.contains indicator (Py.lower key)) indicators.

Definition phone_indicators : list string :=
  ["phone"; "tel"; "mobile"; "landline"; "number"; "linktext"].

Definition email_indicators : list string := ["email"; "mail"; "linktext"].

(** The candidate a string value contributes under a phone key: the text
    matched by the digit pattern, if the value has a digit at all. *)
Definition phone_candidate (value : string) : list string :=
  if Py.any_char Py.isdigit value then
    match Re.re_search Re.phone_re value with
    | Some (g1 :: _) => [g1]
    | _ => []
    end
  else [].

(** The candidate a string value contributes under an email key. *)
Definition email_candidate (value : string) : list string :=
  if Py.contains "@" value && Py.contains "." value then [value] else [].

Section Search.
(** The two [search_recursive] functions differ in the indicator list
    and in what a string under a matching key contributes. *)
Variable indicators : list string.
Variable candidate : string -> list string.

Fixpoint search_recursive (obj : json) (path : string) {struct obj} : walk :=
  walk_call path
    match obj with
    | JDict d =>
        (fix items (d : list (string * json)) : walk :=
           match d with
           | [] => walk_nil
           | (key, value) :: d' =>
               let current_path := key_path path key in
               let this :=
                 if key_matches indicators key then
                   match value with
                   | JStr s => walk_found (candidate s)
                   | JList _ | JDict _ => search_recursive value current_path
                   | _ => walk_nil
                   end
                 else
                   match value with
                   | JList _ | JDict _ => search_recursive value current_path
                   | _ => walk_nil
                   end in
               walk_app this (items d')
           end) d
    | JList l =>
        (fix elems (l : list json) (i : nat) : walk :=
           match l with
           | [] => walk_nil
           | item :: l' =>
               walk_app (search_recursive item (index_path path i)) (elems l' (S i))
           end) l 0%nat
    | _ => walk_nil
    end.

(** One iteration of the loop over the entries of a dict. *)
Definition search_entry (path key : string) (value : json) : walk :=
  let current_path := key_path path key in
  if key_matches indicators key then
    match value with
    | JStr s => walk_found (candidate s)
    | JList _ | JDict _ => search_recursive value current_path
    | _ => walk_nil
    end
  else
    match value with
    | JList _ | JDict _ => search_recursive value current_path
    | _ => walk_nil
    end.
End Search.

Definition search_phones (data : json) : walk :=
  search_recursive phone_indicators phone_candidate data EmptyString.

Definition search_emails (data : json) : walk :=
  search_recursive email_indicators email_candidate data EmptyString.

(* ===================================================================== *)
(** ** Contact normaliser *)
(* ===================================================================== *)

(** [''.join(c for c in phone if c.isdigit())] *)
Definition digits_of (phone : string) : string := Py.filter_string Py.isdigit phone.

(** The body of the cleaning loop: what is appended to [cleaned_phones]
    for one raw phone, if anything. *)
Definition clean_phone (phone : string) : option string :=
  let digits := digits_of phone in
  if (String.length digits =? 10)%nat then
    Some ("(" +:+ Py.slice 0 3 digits +:+ ") " +:+ Py.slice 3 6 digits
              +:+ "-" +:+ Py.slice_from 6 digits)
  else if (String.length digits =? 11)%nat && String.prefix "1" digits then
    Some ("(" +:+ Py.slice 1 4 digits +:+ ") " +:+ Py.slice 4 7 digits
              +:+ "-" +:+ Py.slice_from 7 digits)
  else if (10 <=? String.length digits)%nat then Some phone
  else None.

(** The cleaning loop of [extract_phones_from_data], followed by its
    [list(set(cleaned_phones))]: clean every entry, then deduplicate. *)
Definition normalize_phones (phones : list string) : gset string :=
  list_to_set (omap clean_phone phones).

(** The cleaning loop of [find_phone_numbers_in_response_comprehensive]:
    [for phone in set(phones)], deduplicate first, then clean; the result
    is the list [cleaned_phones]. *)
Definition clean_phones_comprehensive (phones : list string) : list string :=
  omap clean_phone (elements (list_to_set phones : gset string)).

(** The cleaning loop of [find_emails_in_response_comprehensive]. *)
Definition clean_email (email : string) : option string :=
  let email := Py.strip email in
  if Py.contains "@" email && Py.contains "." email && (5 <? String.length email)%nat
  then Some email else None.

Definition clean_emails_comprehensive (emails : list string) : list string :=
  omap clean_email (elements (list_to_set emails : gset string)).

(** The cleaning loop of [extract_emails_from_data] (the purchase path),
    followed by its [list(set(cleaned_emails))]. *)
Definition clean_email_purchased (email : string) : option string :=
  let email := Py.strip email in
  if Py.contains "@" email && Py.contains "." email then Some email else None.

Definition normalize_emails_purchased (emails : list string) : gset string :=
  list_to_set (omap clean_email_purchased emails).

(** The specification's [normalizeEmails]: the rule of the comprehensive
    cleaner, read as a set. *)
Definition normalize_emails (emails : list string) : gset string :=
  list_to_set (clean_emails_comprehensive emails).

Definition find_phone_numbers_in_response_comprehensive (data : json) : list string :=
  clean_phones_comprehensive (found (search_phones data)).

Definition find_emails_in_response_comprehensive (data : json) : list string :=
  clean_emails_comprehensive (found (search_emails data)).

(* ===================================================================== *)
(** ** The HTTP boundary *)
(* ===================================================================== *)

Inductive Method : Type := GET | POST.

(** The URLs the program builds, by shape. *)
Inductive Endpoint : Type :=
| Properties                              (* /v1/properties *)
| PropertyPersons (radar_id : json)       (* /v1/properties/{radar_id}/persons *)
| PersonPhone (person_key : json)         (* /v1/persons/{person_key}/Phone *)
| PersonEmail (person_key : json)         (* /v1/persons/{person_key}/Email *)
| Person (person_key : json)              (* /v1/persons/{person_key} *)
| PersonContact (person_key : json)       (* /v1/persons/{person_key}/contact *)
| PersonContacts (person_key : json)      (* /v1/persons/{person_key}/contacts *)
| PersonPhoneLower (person_key : json).   (* /v1/persons/{person_key}/phone *)

(** One call of [requests.get] or [requests.post]: the [Purchase] query
    parameter and the [Criteria] of the JSON body, a list of names with
    their values (empty when the call has no body). *)
Record Request : Type := mkRequest {
  method : Method;
  endpoint : Endpoint;
  purchase : Z;
  criteria : list (string * list string)
}.

(** What a call gives back: it raises ([Failed]: timeout, connection
    error), or it returns a response with a status code, a text and a body
    which is [None] when [response.json()] raises. *)
Inductive Response : Type :=
| Failed
| Answer (status_code : Z) (text : string) (body : option json).

(** A computation that talks to the boundary: from a world to a value, the
    world afterwards and the requests issued, in order. *)
Record run (W A : Type) : Type := mkRun {
  value : A;
  world : W;
  trace : list Request
}.
Arguments mkRun {W A}.
Arguments value {W A}.
Arguments world {W A}.
Arguments trace {W A}.

Definition io (W A : Type) : Type := W -> run W A.

#[export] Instance io_ret {W} : MRet (io W) := fun A (a : A) w => mkRun a w [].

#[export] Instance io_bind {W} : MBind (io W) := fun A B (f : A -> io W B) (c : io W A) w =>
  let r := c w in
  let r' := f (value r) (world r) in
  mkRun (value r') (world r') (trace r ++ trace r').

(** A lookup result: the contacts and the cost recorded for them. *)
Definition contacts : Type := list string * Q.

Definition no_contacts : contacts := ([], 0%Q).

(** [if xs:] on a list. *)
Definition nonempty {A} (xs : list A) : bool :=
  match xs with [] => false | _ => true end.

(** [v.get] is defined on a dict only; [None] is the [AttributeError]. *)
Definition as_dict (v : json) : option (list (string * json)) :=
  match v with JDict d => Some d | _ => None end.

(** [result_count > 0]; [None] is the [TypeError] of comparing a value
    that is not a number. *)
Definition is_positive (v : json) : option bool :=
  match v with
  | JNum q => Some (negb (Qle_bool q 0))
  | JBool b => Some b
  | _ => None
  end.

(** [response.json()] of an answer with status 200; [None] when the call
    raised, the status differs or the body does not decode. *)
Definition ok_body (resp : Response) : option json :=
  match resp with
  | Answer status _ (Some data) => if (status =? 200)%Z then Some data else None
  | _ => None
  end.

(* ===================================================================== *)
(** ** Enrichment pipeline ([final_working_script.py]) *)
(* ===================================================================== *)

(** An owner as [get_owners_by_radar_id] builds it. *)
Record Owner : Type := mkOwner {
  person_key : json;
  name : json;
  ownership_role : json;
  person_type : json;
  mail_address : json
}.

(** An entry of [owner_details]. *)
Record OwnerDetail : Type := mkOwnerDetail {
  detail_name : json;
  detail_person_key : json;
  detail_phones : list string;
  detail_emails : list string;
  phone_cost : Q;
  email_cost : Q
}.

(** An entry of [results]. *)
Record ReportRecord : Type := mkReport {
  address : string;
  owners : list OwnerDetail;
  phones : list string;
  emails : list string;
  status : string
}.

(** The two contact-lookup sub-protocols are the same code up to the
    endpoint, the extractor applied to no-charge responses and the
    extractor applied to the purchase response. *)
Record lookup : Type := mkLookup {
  lookup_url : json -> Endpoint;
  find_comprehensive : json -> list string;
  extract_from_data : json -> list string
}.

Section Pipeline.
Context {World : Type}.

(** The boundary: how the world answers a request. *)
Variable send : World -> Request -> World * Response.

(** [str(value)] for a value that is not a string, and [float(s)] for a
    string; [None] is the [ValueError]. *)
Variable str_of_value : json -> string.
Variable float_of_string : string -> option Q.

(** [float(n)] for a decoded number: the double nearest to it (a decoded
    float is one already, an integer beyond 2^53 is rounded); [None] is
    the [OverflowError] on an integer too large for a double. *)
Variable float_of_number : Q -> option Q.

Definition http (req : Request) : io World Response := fun w =>
  let (w', resp) := send w req in mkRun resp w' [req].

(** [str(value)] *)
Definition py_str (value : json) : string :=
  match value with
  | JStr s => s
  | _ => str_of_value value
  end.

(** [float(total_cost)]; [None] when it raises. *)
Definition py_float (v : json) : option Q :=
  match v with
  | JNum q => float_of_number q
  | JBool b => Some (if b then 1%Q else 0%Q)
  | JStr s => float_of_string s
  | _ => None
  end.

(** [find_phones_recursive] and [find_emails_recursive]: a truthy value
    under a key containing [word] is recorded as [str(value)] and not
    entered; any other container is entered. *)
Fixpoint find_recursive (word : string) (obj : json) {struct obj} : list string :=
  match obj with
  | JDict d =>
      (fix items (d : list (string * json)) : list string :=
         match d with
         | [] => []
         | (key, value) :: d' =>
             (if Py.contains word (Py.lower key) && truthy value then [py_str value]
              else match value with
                   | JList _ | JDict _ => find_recursive word value
                   | _ => []
                   end) ++ items d'
         end) d
  | JList l =>
      (fix elems (l : list json) : list string :=
         match l with
         | [] => []
         | item :: l' => find_recursive word item ++ elems l'
         end) l
  | _ => []
  end.

Definition extract_phones_from_data (data : json) : list string :=
  elements (normalize_phones (find_recursive "phone" data)).

Definition extract_emails_from_data (data : json) : list string :=
  elements (normalize_emails_purchased (find_recursive "email" data)).

Definition phone_lookup : lookup :=
  mkLookup PersonPhone find_phone_numbers_in_response_comprehensive extract_phones_from_data.

Definition email_lookup : lookup :=
  mkLookup PersonEmail find_emails_in_response_comprehensive extract_emails_from_data.

Section Lookup.
Variable k : lookup.

(** What [get_cached_phone_data] / [get_cached_email_data] return for
    a response.  Every exception inside the [try] ends in the final
    [return [], 0], as does a response without contacts. *)
Definition cached_contacts (resp : Response) : contacts :=
  default no_contacts
    (data ← ok_body resp;
     d ← as_dict data;
     let total_cost := dict_get_default "totalCost" (JNum 0) d in
     let found := find_comprehensive k data in
     if nonempty found then cost ← py_float total_cost; Some (found, cost)
     else Some no_contacts).

(** Step 1: [POST url?Purchase=0]. *)
Definition get_cached_data (url : Endpoint) : io World contacts :=
  resp ← http (mkRequest POST url 0 []);
  mret (cached_contacts resp).

(** The body of the inner loop of the alternative-endpoints step:
    [Some] is the early [return phones, 0]. *)
Definition try_endpoint (endpoint : Endpoint) (purchase_mode : Z)
    : io World (option contacts) :=
  resp ← http (mkRequest GET endpoint purchase_mode []);
  mret (data ← ok_body resp;
        let found := find_comprehensive k data in
        if nonempty found then Some (found, 0%Q) else None).

(** [for purchase_mode in [0, 1]] *)
Fixpoint try_modes (endpoint : Endpoint) (modes : list Z) : io World (option contacts) :=
  match modes with
  | [] => mret None
  | purchase_mode :: rest =>
      r ← try_endpoint endpoint purchase_mode;
      match r with
      | Some c => mret (Some c)
      | None => try_modes endpoint rest
      end
  end.

(** [for endpoint in alternative_endpoints] *)
Fixpoint try_endpoints (endpoints : list Endpoint) : io World (option contacts) :=
  match endpoints with
  | [] => mret None
  | endpoint :: rest =>
      r ← try_modes endpoint [0; 1]%Z;
      match r with
      | Some c => mret (Some c)
      | None => try_endpoints rest
      end
  end.

Definition alternative_endpoints (person_key : json) : list Endpoint :=
  [Person person_key; PersonContact person_key; PersonContacts person_key].

(** Step 2. *)
Definition get_data_alternative_endpoints (person_key : json) : io World contacts :=
  r ← try_endpoints (alternative_endpoints person_key);
  mret (default no_contacts r).

(** What step 3 returns for the response to [POST url?Purchase=1]. *)
Definition purchased_contacts (resp : Response) : contacts :=
  match resp with
  | Failed => no_contacts
  | Answer status text body =>
      if (status =? 200)%Z then
        default no_contacts
          (data ← body;
           d ← as_dict data;
           let total_cost := dict_get_default "totalCost" (JNum 0) d in
           let result_count := dict_get_default "resultCount" (JNum 0) d in
           let found := extract_from_data k data in
           if nonempty found then cost ← py_float total_cost; Some (found, cost)
           else _ ← is_positive result_count;
                cost ← py_float total_cost; Some (found, cost))
      else if (status =? 400)%Z then
        if Py.contains "already purchased" text
           || Py.contains "not available for purchase" text
        then no_contacts else no_contacts
      else no_contacts
  end.

(** [get_phone_numbers_for_owner] / [get_emails_for_owner] *)
Definition get_contacts_for_owner (person_key : json) : io World contacts :=
  if negb (truthy person_key) then mret no_contacts
  else
    let url := lookup_url k person_key in
    cached ← get_cached_data url;
    if nonempty cached.1 then mret cached
    else
      alt ← get_data_alternative_endpoints person_key;
      if nonempty alt.1 then mret alt
      else
        resp ← http (mkRequest POST url 1 []);
        mret (purchased_contacts resp).
End Lookup.

Definition get_cached_phone_data := get_cached_data phone_lookup.
Definition get_phone_data_alternative_endpoints := get_data_alternative_endpoints phone_lookup.
Definition get_phone_numbers_for_owner := get_contacts_for_owner phone_lookup.
Definition get_cached_email_data := get_cached_data email_lookup.
Definition get_email_data_alternative_endpoints := get_data_alternative_endpoints email_lookup.
Definition get_emails_for_owner := get_contacts_for_owner email_lookup.

(** What [search_property_with_propertyradar] returns for a response:
    [data['results']] when it is present, truthy and has a length, the
    empty list otherwise (also on any exception). *)
Definition property_results_of (resp : Response) : json :=
  default (JList [])
    (data ← ok_body resp;
     d ← as_dict data;
     match dict_get "results" d with
     | Some results =>
         if truthy results then
           match results with
           | JList _ | JDict _ | JStr _ => Some results
           | _ => None
           end
         else Some (JList [])
     | None => Some (JList [])
     end).

Definition search_property_with_propertyradar (address : string) (use_paid_search : bool)
    : io World json :=
  match parse_address address with
  | None => mret (JList [])
  | Some components =>
      resp ← http (mkRequest POST Properties (if use_paid_search then 1 else 0)
                             [("Address", [street components]);
                              ("City", [city components]);
                              ("State", [state components]);
                              ("ZipFive", [zip components])]);
      mret (property_results_of resp)
  end.

(** [a or b] *)
Definition py_or (a b : json) : json := if truthy a then a else b.

(** The [owner_info] built for one entry of the owners response; [None]
    when the entry is not a dict ([owner.get] raises). *)
Definition owner_info (owner : json) : option Owner :=
  o ← as_dict owner;
  Some (mkOwner
          (dict_get_default "PersonKey" JNull o)
          (py_or (dict_get_default "EntityName" JNull o)
                 (py_or (dict_get_default "Name" JNull o) (JStr "Unknown Owner")))
          (dict_get_default "OwnershipRole" (JStr "Unknown") o)
          (dict_get_default "PersonType" (JStr "Unknown") o)
          (dict_get_default "MailAddress" (JList []) o)).

(** What [get_owners_by_radar_id] returns for a response. *)
Definition owners_of (resp : Response) : list Owner :=
  default []
    (data ← ok_body resp;
     d ← as_dict data;
     match dict_get "results" d with
     | Some results =>
         if truthy results then
           match results with
           | JList l => mapM owner_info l
           | _ => None
           end
         else Some []
     | None => Some []
     end).

Definition get_owners_by_radar_id (radar_id : json) : io World (list Owner) :=
  resp ← http (mkRequest GET (PropertyPersons radar_id) 1 []);
  mret (owners_of resp).

(** The loop of [extract_owner_info] over the property results.  It runs
    outside any [try]: [None] is the exception that leaves [main] when a
    result is not a dict. *)
Fixpoint owners_of_results (results : list json) : io World (option (list Owner)) :=
  match results with
  | [] => mret (Some [])
  | result :: rest =>
      match as_dict result with
      | None => mret None
      | Some r =>
          let radar_id := dict_get_default "RadarID" JNull r in
          if negb (truthy radar_id) then owners_of_results rest
          else
            owner_data ← get_owners_by_radar_id radar_id;
            more ← owners_of_results rest;
            mret (option_map (app owner_data) more)
      end
  end.

(** [extract_owner_info(property_results)]: iterating a dict or a
    string yields strings, on which [result.get] raises; a number or a
    boolean cannot be iterated. *)
Definition extract_owner_info (property_results : json) : io World (option (list Owner)) :=
  match property_results with
  | JList l => owners_of_results l
  | JDict [] | JStr EmptyString => mret (Some [])
  | _ => mret None
  end.

(** The loop of [main] over the owners of one address: the owner
    details, [all_phones] and [all_emails]. *)
Fixpoint lookup_owners (use_paid_search : bool) (owners : list Owner)
    : io World (list OwnerDetail * list string * list string) :=
  match owners with
  | [] => mret ([], [], [])
  | owner :: rest =>
      let owner_name := name owner in
      let person_key := person_key owner in
      this ←
        (if truthy person_key && use_paid_search then
           p ← get_phone_numbers_for_owner person_key;
           e ← get_emails_for_owner person_key;
           mret (mkOwnerDetail owner_name person_key p.1 e.1 p.2 e.2)
         else mret (mkOwnerDetail owner_name person_key [] [] 0%Q 0%Q));
      more ← lookup_owners use_paid_search rest;
      mret (this :: more.1.1,
            detail_phones this ++ more.1.2,
            detail_emails this ++ more.2)
  end.

(** [list(set(xs))] *)
Definition list_set (xs : list string) : list string :=
  elements (list_to_set xs : gset string).

(** One iteration of the loop of [main] over the board items: the
    [results] list after it, or [None] when an exception leaves [main]. *)
Definition main_step (use_paid_search : bool) (results : list ReportRecord) (item : Item)
    : io World (option (list ReportRecord)) :=
  match extract_address item with
  | None | Some EmptyString =>
      mret (Some (results ++ [mkReport "No address" [] [] [] "No address"]))
  | Some address =>
      property_results ← search_property_with_propertyradar address use_paid_search;
      if negb (truthy property_results) then
        mret (Some (results ++ [mkReport address [] [] [] "No property data"]))
      else
        owners ← extract_owner_info property_results;
        match owners with
        | None => mret None
        | Some [] => mret (Some (results ++ [mkReport address [] [] [] "No owners found"]))
        | Some owners =>
            r ← lookup_owners use_paid_search owners;
            let '(owner_details, all_phones, all_emails) := r in
            mret (Some (results ++
              [mkReport address owner_details (list_set all_phones) (list_set all_emails)
                 (if nonempty all_phones || nonempty all_emails
                  then "Success" else "No contact info found")]))
        end
  end.

(** The loop of [main], from the items the board returned. *)
Fixpoint main_loop (use_paid_search : bool) (results : list ReportRecord) (items : list Item)
    : io World (option (list ReportRecord)) :=
  match items with
  | [] => mret (Some results)
  | item :: rest =>
      r ← main_step use_paid_search results item;
      match r with
      | None => mret None
      | Some results' => main_loop use_paid_search results' rest
      end
  end.

(** [main] sets [USE_PAID_SEARCH = True] and starts from an empty list. *)
Definition main (items : list Item) : io World (option (list ReportRecord)) :=
  main_loop true [] items.

End Pipeline.

(* ===================================================================== *)
(** ** The report loop of [final_property_radar_phone_finder.py] *)
(* ===================================================================== *)

Module Finder.

(** A decoded JSON object that the program updates in place. *)
Definition dict : Type := list (string * json).

(** [d[key] = v]: replace the value of an existing key, or add the
    entry at the end. *)
Fixpoint dict_set (key : string) (v : json) (d : dict) : dict :=
  match d with
  | [] => [(key, v)]
  | (k, x) :: d' => if String.eqb k key then (k, v) :: d' else (k, x) :: dict_set key v d'
  end.

(** An entry of [owner_details]. *)
Record OwnerPhones : Type := mkOwnerPhones {
  owner_name : json;
  owner_phones : list string
}.

(** An entry of [self.results]: there is no [emails] field. *)
Record PhoneRecord : Type := mkPhoneRecord {
  record_item_id : string;
  record_address : string;
  record_owners : list OwnerPhones;
  record_phones : list string;
  record_status : string
}.

Definition owner_fields_to_check : list string :=
  ["Owner"; "owner"; "OwnerName"; "owner_name";
   "PropertyOwner"; "property_owner"; "Name"; "name"].

Definition person_key_fields : list string :=
  ["PersonKey"; "person_key"; "OwnerKey"; "owner_key"; "Key"; "ID"; "Id"].

(** [field in result and result[field]]: the value, when truthy. *)
Definition truthy_field (field : string) (d : dict) : option json :=
  match dict_get field d with
  | Some v => if truthy v then Some v else None
  | None => None
  end.

(** The first field of [fields] with a truthy value in [d]. *)
Fixpoint first_truthy_field (fields : list string) (d : dict) : option json :=
  match fields with
  | [] => None
  | field :: rest =>
      match truthy_field field d with
      | Some v => Some v
      | None => first_truthy_field rest d
      end
  end.

Section Finder.
Context {World : Type}.
Variable send : World -> Request -> World * Response.
Variable str_of_value : json -> string.

(** [search_properties_by_address]: the decoded response when it is a
    dict whose ['results'] is truthy and has a length, else [None]. *)
Definition property_data_of (resp : Response) : option dict :=
  data ← ok_body resp;
  d ← as_dict data;
  results ← dict_get "results" d;
  match results with
  | JList (_ :: _) | JDict (_ :: _) | JStr (String _ _) => Some d
  | _ => None
  end.

Definition search_properties_by_address (address : string) (use_paid_search : bool)
    : io World (option dict) :=
  resp ← http send (mkRequest POST Properties (if use_paid_search then 1 else 0)
                              [("Address", [address])]);
  mret (property_data_of resp).

(** The owners appended for the value of an owner field. *)
Definition owners_of_field (owner_data : json) : list dict :=
  match owner_data with
  | JList l =>
      map (fun owner =>
             match owner with
             | JDict o => o
             | _ => [("Name", JStr (py_str str_of_value owner))]
             end) l
  | JDict o => [o]
  | JStr s => [[("Name", JStr s)]]
  | _ => []
  end.

(** The loop over [person_key_fields]: the key goes into the last
    owner, or into a new one when there is none yet. *)
Fixpoint add_person_keys (fields : list string) (result : dict) (owners : list dict)
    : list dict :=
  match fields with
  | [] => owners
  | field :: rest =>
      match truthy_field field result with
      | Some v =>
          add_person_keys rest result
            match reverse owners with
            | [] => [[(field, v)]]
            | last :: before => reverse before ++ [dict_set field v last]
            end
      | None => add_person_keys rest result owners
      end
  end.

(** The items a [for] loop sees when it iterates the results. *)
Definition iterate (results : json) : list json :=
  match results with
  | JList l => l
  | JDict d => map (fun kv => JStr kv.1) d
  | JStr s => map (fun c => JStr (String c EmptyString)) (list_ascii_of_string s)
  | _ => []
  end.

Definition extract_owner_info (property_data : dict) : list dict :=
  match dict_get "results" property_data with
  | None => []
  | Some results =>
      fold_left
        (fun owners result =>
           match result with
           | JDict r =>
               let owners :=
                 match first_truthy_field owner_fields_to_check r with
                 | Some owner_data => owners ++ owners_of_field owner_data
                 | None => owners
                 end in
               add_person_keys person_key_fields r owners
           | _ => owners
           end)
        (iterate results) []
  end.

(** [extract_phones_from_response] is the code of
    [extract_phones_from_data]. *)
Definition extract_phones_from_response (data : json) : list string :=
  extract_phones_from_data str_of_value data.

Definition get_owner_phones (owner_info : dict) : io World (list string) :=
  match first_truthy_field person_key_fields owner_info with
  | None => mret []
  | Some person_key =>
      resp ← http send (mkRequest POST (PersonPhoneLower person_key) 1 []);
      mret match ok_body resp with
           | Some data => extract_phones_from_response data
           | None => []
           end
  end.

(** The loop over the owners of one address. *)
Fixpoint lookup_owners (owners : list dict) : io World (list OwnerPhones * list string) :=
  match owners with
  | [] => mret ([], [])
  | owner :: rest =>
      let owner_name :=
        dict_get_default "Name" (dict_get_default "OwnerName" (JStr "Unknown") owner) owner in
      owner_phones ← get_owner_phones owner;
      more ← lookup_owners rest;
      mret (mkOwnerPhones owner_name owner_phones :: more.1, owner_phones ++ more.2)
  end.

(** One iteration of the loop of [process_addresses]: [self.results]
    after it. *)
Definition process_step (use_paid_search : bool) (results : list PhoneRecord) (item : Item)
    : io World (list PhoneRecord) :=
  let id := item_id item in
  match extract_address item with
  | None | Some EmptyString =>
      mret (results ++ [mkPhoneRecord id "No address" [] [] "No address"])
  | Some address =>
      property_data ← search_properties_by_address address use_paid_search;
      match property_data with
      | None | Some [] =>
          mret (results ++ [mkPhoneRecord id address [] [] "Property not found"])
      | Some property_data =>
          match extract_owner_info property_data with
          | [] => mret (results ++ [mkPhoneRecord id address [] [] "No owners found"])
          | owners =>
              r ← lookup_owners owners;
              mret (results ++
                [mkPhoneRecord id address r.1 (list_set r.2)
                   (if nonempty r.2 then "Success" else "No phones found")])
          end
      end
  end.

End Finder.

End Finder.

(* ===================================================================== *)
(** ** Auxiliary notions used in the statements *)
(* ===================================================================== *)

(** The loop over the entries of a dict, written with [search_entry]. *)
Fixpoint search_items (indicators : list string) (candidate : string -> list string)
    (path : string) (d : list (string * json)) : walk :=
  match d with
  | [] => walk_nil
  | (key, value) :: d' =>
      walk_app (search_entry indicators candidate path key value)
               (search_items indicators candidate path d')
  end.

(** [has_entry v key value]: the entry [key: value] occurs in a dict
    somewhere inside the document [v]. *)
Inductive has_entry : json -> string -> json -> Prop :=
| entry_here d key value :
    In (key, value) d -> has_entry (JDict d) key value
| entry_under d k v key value :
    In (k, v) d -> has_entry v key value -> has_entry (JDict d) key value
| entry_inside l v key value :
    In v l -> has_entry v key value -> has_entry (JList l) key value.

(** The canonical form [(DDD) DDD-DDDD] of ten characters. *)
Definition canonical (d : string) : string :=
  match d with
  | String d0 (String d1 (String d2 (String d3 (String d4 (String d5
      (String d6 (String d7 (String d8 (String d9 EmptyString))))))))) =>
      String "(" (String d0 (String d1 (String d2 (String ")" (String " "
        (String d3 (String d4 (String d5 (String "-"
          (String d6 (String d7 (String d8 (String d9 EmptyString)))))))))))))
  | _ => d
  end.

(** The cleaning loop of the code as one match on the digits it extracts:
    a form of [clean_phone] that is convenient in proofs. *)
Definition clean_phone_form (raw : string) : option string :=
  let d := digits_of raw in
  match String.length d, d with
  | 10%nat, _ => Some (canonical d)
  | 11%nat, String "1" d' => Some (canonical d')
  | n, _ => if (10 <=? n)%nat then Some raw else None
  end.

(** The digits of the specification: the ten decimal digits. *)
Definition decimal_digits : list ascii := list_ascii_of_string "0123456789".

Definition is_decimal_digit (c : ascii) : bool := existsb (Ascii.eqb c) decimal_digits.

(** "Strip everything but digits": the digit content of a raw string. *)
Definition digit_content (raw : string) : string := Py.filter_string is_decimal_digit raw.

(** The phone rule as the specification words it (section 4.3): exactly
    ten digits give the canonical form; eleven digits with a leading "1"
    give the canonical form of the other ten; at least ten digits of
    neither shape keep the raw string; fewer than ten discard it. *)
Definition phone_rule (raw : string) : option string :=
  let d := digit_content raw in
  match String.length d, d with
  | 10%nat, _ => Some (canonical d)
  | 11%nat, String "1" d' => Some (canonical d')
  | n, _ => if (10 <=? n)%nat then Some raw else None
  end.

(** The specification's [normalizePhones]: the rule on every entry, the
    results collected in a set. *)
Definition normalizePhones (raw : list string) : gset string :=
  list_to_set (omap phone_rule raw).

(** No character of [phone] is taken for a digit by [str.isdigit] without
    being a decimal digit. *)
Definition only_decimal_digits (phone : string) : bool :=
  Py.all_char (fun c => implb (Py.isdigit c) (is_decimal_digit c)) phone.

(** The character U+00B2, superscript two: [str.isdigit] accepts it, and
    it is no decimal digit. *)
Definition superscript_two : ascii := ascii_of_N 178.

(** The email rule as the specification words it (section 4.3). *)
Definition email_rule (raw : string) : option string :=
  let e := Py.strip raw in
  if Py.contains "@" e && Py.contains "." e && (5 <? String.length e)%nat
  then Some e else None.

(** A world that answers from a script: the responses still to be given,
    the next one first; when the script is over every call fails. *)
Definition scripted (w : list Response) (req : Request) : list Response * Response :=
  match w with
  | [] => ([], Failed)
  | resp :: w' => (w', resp)
  end.

(** Instances of the two Python conversions, for running the pipeline on
    concrete worlds. *)
Definition no_str (v : json) : string := EmptyString.
Definition no_float (s : string) : option Q := None.

(** [float] on a number that is a double already, as every cost in the
    worlds below is: the number itself. *)
Definition float_of_double (q : Q) : option Q := Some q.

(** The six requests of the alternative-endpoints step, in the order of
    its two nested loops. *)
Definition alternative_requests (person_key : json) : list Request :=
  flat_map (fun endpoint => map (fun mode => mkRequest GET endpoint mode []) [0; 1]%Z)
           (alternative_endpoints person_key).

(** The branch of the [if]/[elif] chain of the cleaning loop that a raw
    phone takes. *)
Inductive CleanBranch : Type := TenDigits | ElevenDigits | KeptAsIs | Discarded.

Definition clean_phone_branch (phone : string) : CleanBranch :=
  let digits := digits_of phone in
  if (String.length digits =? 10)%nat then TenDigits
  else if (String.length digits =? 11)%nat && String.prefix "1" digits then ElevenDigits
  else if (10 <=? String.length digits)%nat then KeptAsIs
  else Discarded.

(** The purchase-mode requests of a trace: those sent with [Purchase=1]. *)
Definition purchase_requests (requests : list Request) : list Request :=
  List.filter (fun req => (purchase req =? 1)%Z) requests.

(** Clean every entry of a list and collect the results in a set. *)
Definition clean_set (clean : string -> option string) (raw : list string) : gset string :=
  list_to_set (omap clean raw).

(** The contacts the comprehensive extractor of a lookup finds in a
    response (none unless it is a decodable answer with status 200). *)
Definition found_in (k : lookup) (resp : Response) : list string :=
  match ok_body resp with
  | Some data => find_comprehensive k data
  | None => []
  end.

Section Replay.
Context {World : Type}.
Variable send : World -> Request -> World * Response.

(** The responses the world gives to a sequence of requests, and the
    world after them. *)
Fixpoint replay (w : World) (reqs : list Request) : list Response :=
  match reqs with
  | [] => []
  | req :: rest => (send w req).2 :: replay (send w req).1 rest
  end.

Fixpoint after (w : World) (reqs : list Request) : World :=
  match reqs with
  | [] => w
  | req :: rest => after (send w req).1 rest
  end.

(** What a loop of attempts over the requests [reqs] from the world [w]
    guarantees about its run [r]. *)
Definition probed (k : lookup) (reqs : list Request) (w : World)
    (r : run World (option contacts)) : Prop :=
  trace r `prefix_of` reqs /\
  world r = after w (trace r) /\
  (value r = None ->
   trace r = reqs /\ Forall (fun resp => found_in k resp = []) (replay w reqs)) /\
  (forall c, value r = Some c ->
   exists earlier resp,
     replay w (trace r) = earlier ++ [resp] /\
     Forall (fun resp => found_in k resp = []) earlier /\
     found_in k resp <> [] /\
     c = (found_in k resp, 0%Q)).
End Replay.

(** The requests of one lookup: the no-charge request, then a prefix of
    the six alternative requests, then, only after all six, the purchase. *)
Definition lookup_shape {World : Type} (k : lookup) (person_key : json)
    (r : run World contacts) : Prop :=
  let url := lookup_url k person_key in
  exists alt,
    alt `prefix_of` alternative_requests person_key /\
    (trace r = mkRequest POST url 0 [] :: alt \/
     alt = alternative_requests person_key /\
     trace r = mkRequest POST url 0 [] :: alt ++ [mkRequest POST url 1 []]).


(** The record [main] builds once the owners of an address were looked
    up. *)
Definition contact_record (address : string)
    (looked_up : list OwnerDetail * list string * list string) : ReportRecord :=
  mkReport address looked_up.1.1 (list_set looked_up.1.2) (list_set looked_up.2)
    (if nonempty looked_up.1.2 || nonempty looked_up.2
     then "Success" else "No contact info found").


(** The counts of the final summary of [main]:
    [len(results)], [sum(1 for r in results if r['phones'])] and the like,
    and [sum(len(r['phones']) for r in results)]. *)
Definition total_addresses (results : list ReportRecord) : nat := length results.

Definition addresses_with_phones (results : list ReportRecord) : nat :=
  length (List.filter (fun r => nonempty (phones r)) results).

Definition addresses_with_emails (results : list ReportRecord) : nat :=
  length (List.filter (fun r => nonempty (emails r)) results).

Definition addresses_with_contact (results : list ReportRecord) : nat :=
  length (List.filter (fun r => nonempty (phones r) || nonempty (emails r)) results).

Definition total_phones (results : list ReportRecord) : nat :=
  fold_right Nat.add 0%nat (map (fun r => length (phones r)) results).

Definition total_emails (results : list ReportRecord) : nat :=
  fold_right Nat.add 0%nat (map (fun r => length (emails r)) results).

(* ===================================================================== *)
(** * Properties *)
(* ===================================================================== *)

(** ** Strings *)

Lemma is_empty_spec s : Py.is_empty s = true <-> s = EmptyString.
Proof. destruct s; simpl; split; congruence. Qed.

Lemma rstrip_idem s : Py.rstrip (Py.rstrip s) = Py.rstrip s.
Proof.
  induction s as [|c s IH]; simpl; [done|].
  destruct (Py.isspace c && Py.is_empty (Py.rstrip s)) eqn:E; simpl; [done|].
  rewrite IH, E. done.
Qed.

Lemma lstrip_head s :
  Py.lstrip s = EmptyString \/
  exists c t, Py.lstrip s = String c t /\ Py.isspace c = false.
Proof.
  induction s as [|c s IH]; simpl; [by left|].
  destruct (Py.isspace c) eqn:E; [done|]. right. eauto.
Qed.

Lemma strip_idem s : Py.strip (Py.strip s) = Py.strip s.
Proof.
  unfold Py.strip.
  destruct (lstrip_head s) as [->|(c & t & -> & Hc)]; [done|].
  simpl. rewrite Hc. simpl. rewrite Hc. simpl.
  rewrite rstrip_idem, Hc. done.
Qed.

Lemma split_not_nil sep s : Py.split sep s <> [].
Proof.
  destruct s as [|c s]; simpl; [done|].
  destruct (Ascii.eqb c sep); [done|]. by destruct (Py.split sep s).
Qed.

(** ** Address source *)

Lemma column_address_none columns :
  Forall (fun c => forall t, column_text c = Some t -> has_address_indicator t = false) columns ->
  column_address columns = None.
Proof.
  induction 1 as [|c cs Hc _ IH]; simpl; [done|].
  destruct (column_text c) as [t|] eqn:E; [|done].
  rewrite (Hc t eq_refl), andb_false_r. done.
Qed.

Lemma column_address_nonempty columns t : column_address columns = Some t -> t <> EmptyString.
Proof.
  induction columns as [|c cs IH]; simpl; [done|].
  destruct (column_text c) as [u|]; [|done].
  destruct (negb (Py.is_empty u) && has_address_indicator u) eqn:E; [|done].
  intros [= <-] ->. done.
Qed.

(** [extract_address] never returns the empty string. *)
Lemma extract_address_nonempty item a : extract_address item = Some a -> a <> EmptyString.
Proof.
  unfold extract_address.
  destruct (String.eqb _ _); [done|].
  destruct (has_address_indicator (item_name item)) eqn:E.
  - intros [= <-] H. rewrite H in E. done.
  - destruct (column_address _) eqn:C.
    + intros [= <-]. eauto using column_address_nonempty.
    + destruct (item_name item); [done|]. by intros [= <-].
Qed.

(** C10. [extract_address] returns no address for an item named exactly
    "New address"; and when neither the name nor any column text contains
    a street-type keyword (case-insensitively), it returns the raw name
    whenever the name is non-empty, and no address only for the empty
    name. *)
Theorem C10_extract_address_falls_back_to_name (item : Item) :
  (item_name item = "New address" -> extract_address item = None) /\
  (item_name item <> "New address" ->
   has_address_indicator (item_name item) = false ->
   Forall (fun c => forall t, column_text c = Some t -> has_address_indicator t = false)
          (column_values item) ->
   extract_address item
   = if Py.is_empty (item_name item) then None else Some (item_name item)).
Proof.
  unfold extract_address. split.
  - intros ->. done.
  - intros Hne Hname Hcols.
    apply String.eqb_neq in Hne. rewrite Hne, Hname.
    rewrite (column_address_none _ Hcols). by destruct (item_name item).
Qed.

Lemma C10_witness :
  extract_address (mkItem "7" "New address" [mkColumn "text" (Some "12 Oak Ave")]) = None /\
  extract_address (mkItem "8" "Acme Lead 42" [mkColumn "text" (Some "call back"); mkColumn "x" None])
  = Some "Acme Lead 42" /\
  extract_address (mkItem "9" EmptyString [mkColumn "text" None]) = None.
Proof.
  split; [|split].
  - apply (proj1 (C10_extract_address_falls_back_to_name
                    (mkItem "7" "New address" [mkColumn "text" (Some "12 Oak Ave")]))).
    reflexivity.
  - apply (proj2 (C10_extract_address_falls_back_to_name
                    (mkItem "8" "Acme Lead 42"
                       [mkColumn "text" (Some "call back"); mkColumn "x" None]))).
    + discriminate.
    + vm_compute. reflexivity.
    + repeat constructor; simpl; intros t [= <-]; vm_compute; reflexivity.
  - apply (proj2 (C10_extract_address_falls_back_to_name (mkItem "9" EmptyString [mkColumn "text" None]))).
    + discriminate.
    + vm_compute. reflexivity.
    + repeat constructor; simpl; intros t; discriminate.
Defined.

(** ** Address parser *)

Lemma parse_address_fallthrough raw : parse_address raw = parse_fallthrough raw.
Proof.
  unfold parse_address, parse_fallthrough, part.
  destruct (Py.split "," raw) as [|s0 [|s1 [|s2 rest]]]; simpl; try done.
  repeat case_match; simplify_eq; done.
Qed.

Lemma parse_address_few_segments raw :
  (length (Py.split "," raw) < 2)%nat -> parse_address raw = None.
Proof.
  rewrite parse_address_fallthrough. unfold parse_fallthrough.
  destruct (Py.split "," raw) as [|s0 [|s1 rest]]; simpl; [done|done|lia].
Qed.

Lemma parse_address_two_segments raw :
  length (Py.split "," raw) = 2%nat -> parse_address raw = parse_reference raw.
Proof.
  rewrite parse_address_fallthrough. unfold parse_fallthrough, parse_reference.
  destruct (Py.split "," raw) as [|s0 [|s1 [|s2 rest]]]; simpl; done.
Qed.

Lemma parse_address_extends_reference raw :
  parse_reference raw <> None -> parse_address raw = parse_reference raw.
Proof.
  rewrite parse_address_fallthrough. unfold parse_fallthrough, parse_reference.
  destruct (map Py.strip (Py.split "," raw)) as [|s0 [|s1 [|s2 rest]]]; try done.
  repeat case_match; simplify_eq; done.
Qed.

(** C2, as stated, fails: on an input of three segments whose third
    segment is no state and zip, the code goes on to the combined pattern
    on the second segment and succeeds where the reference algorithm
    fails. *)
Lemma C2_counterexample :
  parse_address "1 Main St, Columbus Ms 39701, USA"
  = Some (mkAddress "1 Main St" "Columbus" "MS" "39701") /\
  parse_reference "1 Main St, Columbus Ms 39701, USA" = None /\
  parse_address "1 Main St, Columbus Ms 39701, USA"
  <> parse_reference "1 Main St, Columbus Ms 39701, USA".
Proof. vm_compute. split; [done|split; [done|discriminate]]. Qed.

(** C2, amended. [parse_address] splits on commas and trims the segments.
    With at least three segments it succeeds when segment 2 matches
    [^[A-Za-z]{2}\s+\d{5}] (street = segment 0, city = segment 1, state
    upper-cased, zip the five digits).  Otherwise, with at least two
    segments (exactly two, or three and more whose segment 2 did not
    match), it succeeds exactly when segment 1 matches
    [^(.+?),?\s+([A-Za-z]{2})\s+(\d{5})], with trimmed city and upper-cased
    state.  Fewer than two segments always fail; on exactly two segments,
    and wherever the reference algorithm succeeds, the code agrees with
    the reference algorithm. *)
Theorem C2_parse_address_amended (raw : string) :
  parse_address raw = parse_fallthrough raw /\
  ((length (Py.split "," raw) < 2)%nat -> parse_address raw = None) /\
  (length (Py.split "," raw) = 2%nat -> parse_address raw = parse_reference raw) /\
  (parse_reference raw <> None -> parse_address raw = parse_reference raw).
Proof.
  split; [apply parse_address_fallthrough|].
  split; [apply parse_address_few_segments|].
  split; [apply parse_address_two_segments|].
  apply parse_address_extends_reference.
Qed.

Lemma C2_witness :
  parse_address "no comma in here TX 75039" = None /\
  parse_address "1521 S Frontage Rd, Columbus Ms 39701"
  = Some (mkAddress "1521 S Frontage Rd" "Columbus" "MS" "39701") /\
  parse_address "400 LAS COLINAS BLVD E, IRVING, TX 75039"
  = Some (mkAddress "400 LAS COLINAS BLVD E" "IRVING" "TX" "75039").
Proof.
  split; [|split].
  - apply (proj1 (proj2 (C2_parse_address_amended "no comma in here TX 75039"))).
    vm_compute. lia.
  - rewrite (proj1 (proj2 (proj2 (C2_parse_address_amended
               "1521 S Frontage Rd, Columbus Ms 39701")))); vm_compute; reflexivity.
  - rewrite (proj2 (proj2 (proj2 (C2_parse_address_amended
               "400 LAS COLINAS BLVD E, IRVING, TX 75039")))); vm_compute; [reflexivity|discriminate].
Defined.

Example parse_las_colinas :
  parse_address "400 LAS COLINAS BLVD E, IRVING, TX 75039"
  = Some (mkAddress "400 LAS COLINAS BLVD E" "IRVING" "TX" "75039").
Proof. vm_compute. reflexivity. Qed.

Example parse_lowercase_state :
  parse_address "4097 Al Highway 69, Guntersville, Al 35976"
  = Some (mkAddress "4097 Al Highway 69" "Guntersville" "AL" "35976").
Proof. vm_compute. reflexivity. Qed.

Example parse_two_segments :
  parse_address "1521 S Frontage Rd, Columbus Ms 39701"
  = Some (mkAddress "1521 S Frontage Rd" "Columbus" "MS" "39701").
Proof. vm_compute. reflexivity. Qed.

(** The lazy group takes the shortest city that lets the rest match, and
    a match need not reach the end of the text. *)
Example match_city_state_zip :
  Re.re_match Re.city_state_zip_re "St. Louis Mo 63101 and Reno NV 89501"
  = Some ["St. Louis"; "Mo"; "63101"].
Proof. vm_compute. reflexivity. Qed.

Example match_state_zip_needs_space :
  Re.re_match Re.state_zip_re "TX75039" = None /\
  Re.re_match Re.state_zip_re "tx   75039-1234" = Some ["tx"; "75039"].
Proof. vm_compute. done. Qed.

Example search_phone_leftmost :
  Re.re_search Re.phone_re "call 555-123-4567 or 555.987.6543" = Some ["555-123-4567"] /\
  Re.re_search Re.phone_re "(555) 123-4567" = None.
Proof. vm_compute. done. Qed.

Example extract_address_name :
  extract_address (mkItem "1" "12 Oak Ave, Reno, NV 89501" []) = Some "12 Oak Ave, Reno, NV 89501".
Proof. vm_compute. reflexivity. Qed.

Example extract_address_column :
  extract_address (mkItem "2" "Lead 7" [mkColumn "c1" None; mkColumn "c2" (Some "9 Elm Blvd")])
  = Some "9 Elm Blvd".
Proof. vm_compute. reflexivity. Qed.

(** ** Fuzzy field extractor *)

Lemma walk_app_nil_r w : walk_app w walk_nil = w.
Proof. destruct w. unfold walk_app. simpl. by rewrite !app_nil_r. Qed.

Section SearchFacts.
Variable indicators : list string.
Variable candidate : string -> list string.

(** The loop inside [search_recursive] is [search_items]. *)
Lemma search_recursive_dict d path :
  search_recursive indicators candidate (JDict d) path
  = walk_call path (search_items indicators candidate path d).
Proof.
  simpl. f_equal. induction d as [|[key value] d IH]; simpl; [done|].
  rewrite IH. done.
Qed.

(** A container entry is entered by one invocation, whether or not its
    key matches an indicator. *)
Lemma search_entry_container path key value :
  is_container value = true ->
  search_entry indicators candidate path key value
  = search_recursive indicators candidate value (key_path path key).
Proof.
  unfold search_entry. destruct value; try done; by destruct (key_matches _ _).
Qed.

(** Every invocation logs its own path first. *)
Lemma calls_head obj path :
  exists rest, calls (search_recursive indicators candidate obj path) = path :: rest.
Proof. destruct obj; simpl; eauto. Qed.

(** Where the candidates come from: a string value under a key that
    matches an indicator. *)
Lemma found_sound obj : forall path x,
  x ∈ found (search_recursive indicators candidate obj path) ->
  exists key value,
    has_entry obj key (JStr value) /\
    key_matches indicators key = true /\
    x ∈ candidate value.
Proof.
  induction obj as [| | | |l IH|d IH] using json_induction; intros path x; try (simpl; by intros ?%elem_of_nil).
  - (* list *)
    simpl. generalize 0%nat.
    induction IH as [|item l Hitem _ IHl]; intros i; simpl; [by intros ?%elem_of_nil|].
    rewrite elem_of_app. intros [Hx|Hx].
    + destruct (Hitem _ _ Hx) as (key & value & He & Hk & Hc).
      exists key, value. split; [|done]. eapply entry_inside; [|done]. by left.
    + destruct (IHl _ Hx) as (key & value & He & Hk & Hc).
      exists key, value. split; [|done].
      inversion He; subst. eapply entry_inside; [|done]. by right.
  - (* dict *)
    rewrite search_recursive_dict. simpl.
    induction IH as [|[k v] d Hv _ IHd]; simpl; [by intros ?%elem_of_nil|].
    rewrite elem_of_app. intros [Hx|Hx].
    + unfold search_entry in Hx. simpl in Hv.
      destruct (key_matches indicators k) eqn:Hk.
      * destruct v; simpl in Hx; try by apply elem_of_nil in Hx.
        -- exists k, s. split; [|done]. apply entry_here. by left.
        -- destruct (Hv _ _ Hx) as (key & value & He & Hk' & Hc).
           exists key, value. split; [|done]. eapply entry_under; [|done]. by left.
        -- destruct (Hv _ _ Hx) as (key & value & He & Hk' & Hc).
           exists key, value. split; [|done]. eapply entry_under; [|done]. by left.
      * destruct v; simpl in Hx; try by apply elem_of_nil in Hx.
        -- destruct (Hv _ _ Hx) as (key & value & He & Hk' & Hc).
           exists key, value. split; [|done]. eapply entry_under; [|done]. by left.
        -- destruct (Hv _ _ Hx) as (key & value & He & Hk' & Hc).
           exists key, value. split; [|done]. eapply entry_under; [|done]. by left.
    + destruct (IHd Hx) as (key & value & He & Hk & Hc).
      exists key, value. split; [|done].
      inversion He; subst.
      * apply entry_here. by right.
      * eapply entry_under; [|done]. by right.
Qed.
End SearchFacts.

(** C5, as stated, fails: the value "(555) 123-4567" contains no match of
    the digit pattern, which allows only "-" or "." between the groups, so
    the extractor yields no candidate for it. *)
Lemma C5_counterexample :
  found (search_phones (JDict [("HomePhone", JStr "(555) 123-4567")])) = [] /\
  find_phone_numbers_in_response_comprehensive (JDict [("HomePhone", JStr "(555) 123-4567")]) = [].
Proof. vm_compute. done. Qed.

(** C5, amended. Under the key "HomePhone" the value "555-123-4567" yields
    the candidate "555-123-4567" (cleaned to "(555) 123-4567"), while the
    value "(555) 123-4567" yields none; the mapping
    {"notes": "call 555-123-4567 maybe"} yields no match; and for every
    document, each phone candidate is the text matched by the digit pattern
    in a string value whose key contains an indicator substring. *)
Theorem C5_phone_candidates_are_key_driven :
  found (search_phones (JDict [("HomePhone", JStr "555-123-4567")])) = ["555-123-4567"] /\
  find_phone_numbers_in_response_comprehensive (JDict [("HomePhone", JStr "555-123-4567")])
  = ["(555) 123-4567"] /\
  found (search_phones (JDict [("HomePhone", JStr "(555) 123-4567")])) = [] /\
  found (search_phones (JDict [("notes", JStr "call 555-123-4567 maybe")])) = [] /\
  forall data x,
    x ∈ found (search_phones data) ->
    exists key value groups,
      has_entry data key (JStr value) /\
      key_matches phone_indicators key = true /\
      Re.re_search Re.phone_re value = Some (x :: groups).
Proof.
  repeat split; try (vm_compute; reflexivity).
  intros data x Hx.
  destruct (found_sound _ _ _ _ _ Hx) as (key & value & He & Hk & Hc).
  unfold phone_candidate in Hc.
  destruct (Py.any_char Py.isdigit value); [|by apply elem_of_nil in Hc].
  destruct (Re.re_search Re.phone_re value) as [[|g gs]|] eqn:E;
    try by apply elem_of_nil in Hc.
  apply list_elem_of_singleton in Hc as ->. eauto 10.
Qed.

Lemma C5_witness :
  exists key value groups,
    has_entry (JDict [("notes", JStr "555-123-4567"); ("WorkTel", JStr "fax 555.123.4567")])
              key (JStr value) /\
    key_matches phone_indicators key = true /\
    Re.re_search Re.phone_re value = Some ("555.123.4567" :: groups).
Proof.
  apply (proj2 (proj2 (proj2 (proj2 C5_phone_candidates_are_key_driven)))).
  vm_compute. apply list_elem_of_here.
Defined.

(** C6, as stated, fails: the subtree under a matching key is entered by
    one invocation, not two.  Under the key "Phone" the nested mapping is
    visited once (the call log holds its path once) and its number is
    collected once. *)
Lemma C6_counterexample :
  let data := JDict [("Phone", JDict [("areaCode", JStr "555"); ("number", JStr "5551234567")])] in
  calls (search_phones data) = [EmptyString; "Phone"] /\
  found (search_phones data) = ["5551234567"] /\
  length (filter (fun path => path = "Phone") (calls (search_phones data))) <> 2%nat.
Proof. vm_compute. repeat split; done. Qed.

(** C6, amended. For every mapping entry whose value is itself a mapping
    or a sequence, the traversal recurses into the value whether or not
    the key matches an indicator, and it does so exactly once: what the
    entry contributes to the traversal (candidates and invocations) is what
    a single invocation on the value contributes. *)
Theorem C6_nested_value_entered_once
    (indicators : list string) (candidate : string -> list string)
    (path key : string) (value : json) (rest : list (string * json)) :
  is_container value = true ->
  search_recursive indicators candidate (JDict ((key, value) :: rest)) path
  = walk_call path
      (walk_app (search_recursive indicators candidate value (key_path path key))
                (search_items indicators candidate path rest)) /\
  search_entry indicators candidate path key value
  = search_recursive indicators candidate value (key_path path key).
Proof.
  intros Hc. rewrite search_recursive_dict. simpl.
  rewrite (search_entry_container _ _ _ _ _ Hc). done.
Qed.

Lemma C6_witness :
  search_phones (JDict [("Phone", JDict [("areaCode", JStr "555"); ("number", JStr "5551234567")])])
  = walk_call EmptyString
      (walk_app (search_recursive phone_indicators phone_candidate
                   (JDict [("areaCode", JStr "555"); ("number", JStr "5551234567")]) "Phone")
                walk_nil).
Proof.
  apply (proj1 (C6_nested_value_entered_once phone_indicators phone_candidate EmptyString "Phone"
                  (JDict [("areaCode", JStr "555"); ("number", JStr "5551234567")]) []
                  eq_refl)).
Defined.

(** ** Contact normaliser *)

Lemma filter_string_all p s : Py.all_char p (Py.filter_string p s) = true.
Proof.
  induction s as [|c s IH]; simpl; [done|].
  destruct (p c) eqn:E; simpl; [by rewrite E|done].
Qed.

Lemma filter_string_id p s : Py.all_char p s = true -> Py.filter_string p s = s.
Proof.
  induction s as [|c s IH]; simpl; [done|].
  intros [Hc Hs]%andb_true_iff. rewrite Hc, IH; done.
Qed.

(** The code's slicing and formatting is the canonical form. *)
Lemma clean_phone_form_eq phone : clean_phone phone = clean_phone_form phone.
Proof.
  unfold clean_phone, clean_phone_form.
  generalize (digits_of phone). intros d.
  do 11 (destruct d as [|? d]; [reflexivity|]).
  destruct d as [|? d]; [|reflexivity].
  (* eleven digits: the leading character decides *)
  destruct a as [[] [] [] [] [] [] [] []]; reflexivity.
Qed.

(** The canonical form keeps exactly its ten digits. *)
Lemma digits_of_canonical d :
  String.length d = 10%nat -> Py.all_char Py.isdigit d = true ->
  digits_of (canonical d) = d.
Proof.
  intros Hlen Hall.
  do 10 (destruct d as [|? d]; [discriminate|]).
  destruct d; [|discriminate].
  simpl in Hall. repeat (apply andb_true_iff in Hall as [? Hall]).
  unfold canonical, digits_of.
  cbn [Py.filter_string].
  change (Py.isdigit "(") with false. change (Py.isdigit ")") with false.
  change (Py.isdigit " ") with false. change (Py.isdigit "-") with false.
  repeat match goal with H : Py.isdigit ?c = true |- _ => rewrite H; clear H end.
  reflexivity.
Qed.

Lemma canonical_length d : String.length d = 10%nat -> String.length (canonical d) = 14%nat.
Proof.
  intros Hlen.
  do 10 (destruct d as [|? d]; [discriminate|]).
  destruct d; [|discriminate]. reflexivity.
Qed.

Lemma clean_phone_form_canonical d :
  String.length d = 10%nat -> Py.all_char Py.isdigit d = true ->
  clean_phone_form (canonical d) = Some (canonical d).
Proof.
  intros Hlen Hall. unfold clean_phone_form.
  rewrite (digits_of_canonical d Hlen Hall), Hlen. done.
Qed.

(** What the cleaning loop can produce: the canonical form of ten
    characters it took for digits, or the raw string itself. *)
Lemma clean_phone_form_cases phone x :
  clean_phone_form phone = Some x ->
  (exists d, String.length d = 10%nat /\ Py.all_char Py.isdigit d = true /\ x = canonical d)
  \/ x = phone.
Proof.
  unfold clean_phone_form.
  pose proof (filter_string_all Py.isdigit phone) as Hall. fold (digits_of phone) in Hall.
  revert Hall. generalize (digits_of phone). intros d Hall.
  do 10 (destruct d as [|? d]; [discriminate|]).
  destruct d as [|? d].
  { intros [= <-]. left.
    match type of Hall with Py.all_char _ ?d = true => exists d end. done. }
  destruct d as [|? d]; [|intros [= <-]; by right].
  simpl in Hall. apply andb_true_iff in Hall as [_ Hall].
  destruct a as [[] [] [] [] [] [] [] []]; intros [= <-]; try (by right).
  left. exists (String a0 (String a1 (String a2 (String a3 (String a4
                 (String a5 (String a6 (String a7 (String a8 (String a9 EmptyString)))))))))).
  done.
Qed.

(** Every value the cleaning loop produces is left unchanged by it. *)
Lemma clean_phone_form_fixed phone x : clean_phone_form phone = Some x -> clean_phone_form x = Some x.
Proof.
  intros H. destruct (clean_phone_form_cases _ _ H) as [(d & Hlen & Hall & ->)| ->]; [|done].
  by apply clean_phone_form_canonical.
Qed.

Lemma clean_phone_fixed phone x : clean_phone phone = Some x -> clean_phone x = Some x.
Proof. rewrite !clean_phone_form_eq. apply clean_phone_form_fixed. Qed.

Lemma clean_email_purchased_fixed email x :
  clean_email_purchased email = Some x -> clean_email_purchased x = Some x.
Proof.
  unfold clean_email_purchased.
  destruct (Py.contains "@" (Py.strip email) && Py.contains "." (Py.strip email)) eqn:E; [|done].
  intros [= <-]. by rewrite strip_idem, E.
Qed.

Lemma clean_email_fixed email x : clean_email email = Some x -> clean_email x = Some x.
Proof.
  unfold clean_email.
  destruct (Py.contains "@" (Py.strip email) && Py.contains "." (Py.strip email)
            && (5 <? String.length (Py.strip email))%nat) eqn:E; [|done].
  intros [= <-]. by rewrite strip_idem, E.
Qed.

(** *** Cleaning a list and collecting the results in a set *)

Section CleanSet.
Variable clean : string -> option string.
Local Abbreviation clean_set := (clean_set clean).

Lemma elem_of_clean_set raw x :
  x ∈ clean_set raw <-> exists r, r ∈ raw /\ clean r = Some x.
Proof. unfold clean_set. rewrite elem_of_list_to_set, list_elem_of_omap. done. Qed.

(** The result depends on the set of the inputs only. *)
Lemma clean_set_ext raw1 raw2 :
  (forall r, r ∈ raw1 <-> r ∈ raw2) -> clean_set raw1 = clean_set raw2.
Proof.
  intros H. apply set_eq. intros x. rewrite !elem_of_clean_set.
  split; intros (r & Hr & Hx); exists r; split; try done; by apply H.
Qed.

(** Deduplicating before cleaning gives the same set. *)
Lemma clean_set_dedup_first raw :
  list_to_set (omap clean (elements (list_to_set raw : gset string))) = clean_set raw.
Proof.
  apply set_eq. intros x.
  rewrite elem_of_list_to_set, list_elem_of_omap, elem_of_clean_set.
  split; intros (r & Hr & Hx); exists r; split; try done.
  - by apply elem_of_elements, elem_of_list_to_set in Hr.
  - by apply elem_of_elements, elem_of_list_to_set.
Qed.

Hypothesis clean_fixed : forall r x, clean r = Some x -> clean x = Some x.

(** Cleaning the output again changes nothing. *)
Lemma clean_set_idem raw : clean_set (elements (clean_set raw)) = clean_set raw.
Proof.
  apply set_eq. intros x. rewrite elem_of_clean_set. split.
  - intros (y & Hy & Hx). apply elem_of_elements in Hy.
    pose proof Hy as (r & _ & Hr)%elem_of_clean_set.
    apply clean_fixed in Hr. congruence.
  - intros Hx. exists x. split; [by apply elem_of_elements|].
    apply elem_of_clean_set in Hx as (r & _ & Hr). eauto.
Qed.
End CleanSet.

(** The decimal digits are the characters of [\d]; [str.isdigit] accepts
    them and three more. *)
Lemma is_decimal_digit_re c : is_decimal_digit c = Py.re_digit c.
Proof. destruct c as [[] [] [] [] [] [] [] []]; reflexivity. Qed.

Lemma digits_of_content phone :
  only_decimal_digits phone = true -> digits_of phone = digit_content phone.
Proof.
  unfold only_decimal_digits, digits_of, digit_content.
  induction phone as [|c phone IH]; [done|]. cbn [Py.all_char Py.filter_string].
  intros [Hc Hs]%andb_true_iff. rewrite (IH Hs).
  destruct (Py.isdigit c) eqn:E; cbn [implb] in Hc; [by rewrite Hc|].
  rewrite is_decimal_digit_re. unfold Py.isdigit in E.
  by destruct (Py.re_digit c).
Qed.

(** On a raw string without superscript digits the cleaning loop is the
    phone rule. *)
Lemma clean_phone_is_rule phone :
  only_decimal_digits phone = true -> clean_phone phone = phone_rule phone.
Proof.
  intros H. rewrite clean_phone_form_eq. unfold clean_phone_form, phone_rule.
  by rewrite (digits_of_content phone H).
Qed.

(** On such strings the purchase path, which deduplicates after cleaning,
    computes [normalizePhones]. *)
Lemma normalize_phones_is_rule raw :
  Forall (fun phone => only_decimal_digits phone = true) raw ->
  normalize_phones raw = normalizePhones raw.
Proof.
  unfold normalize_phones, normalizePhones. intros H. f_equal.
  induction H as [|phone raw Hphone _ IH]; [done|].
  cbn [omap list_omap]. by rewrite (clean_phone_is_rule phone Hphone), IH.
Qed.

Lemma normalizePhones_example :
  normalizePhones ["5551234567"; "15551234567"; "5551234567"] = {["(555) 123-4567"]}.
Proof.
  apply set_eq. intros x. unfold normalizePhones.
  rewrite elem_of_list_to_set, list_elem_of_omap, elem_of_singleton. split.
  - intros (r & Hr & Hx).
    repeat (apply elem_of_cons in Hr as [->|Hr];
            [vm_compute in Hx; first [discriminate | by injection Hx]|]).
    by apply elem_of_nil in Hr.
  - intros ->. exists "5551234567". split; [apply list_elem_of_here|reflexivity].
Qed.

(** C7. The code departs from the phone rule in two places.
    (1) [find_phone_numbers_in_response_comprehensive] removes duplicates
    before it cleans ([for phone in set(phones):  # Remove duplicates]) and
    returns the cleaned list as it is: two spellings of one number come
    back as the same canonical value twice, and so does the list of the
    specification's example, where [normalizePhones] is a single-element
    set; [extract_phones_from_data] deduplicates after cleaning and
    returns the value once.
    (2) Both cleaning loops select digits with [str.isdigit], which
    accepts the superscript two: a string with nine digits and a
    superscript, which the rule discards, is formatted as a phone number. *)
Theorem C7_phone_normalisation_diverges :
  let data := JDict [("Phone", JStr "555-123-4567"); ("HomePhone", JStr "555.123.4567")] in
  let example := ["5551234567"; "15551234567"; "5551234567"] in
  let raw := "555123456" +:+ String superscript_two EmptyString in
  (find_phone_numbers_in_response_comprehensive data
   = ["(555) 123-4567"; "(555) 123-4567"] /\
   extract_phones_from_data no_str data = ["(555) 123-4567"] /\
   clean_phones_comprehensive example = ["(555) 123-4567"; "(555) 123-4567"] /\
   elements (normalize_phones example) = ["(555) 123-4567"] /\
   normalizePhones example = {["(555) 123-4567"]}) /\
  (phone_rule raw = None /\
   clean_phone raw = Some ("(555) 123-456" +:+ String superscript_two EmptyString) /\
   extract_phones_from_data no_str (JDict [("Phone", JStr raw)])
   = ["(555) 123-456" +:+ String superscript_two EmptyString]).
Proof.
  cbv zeta. split.
  - split; [vm_compute; reflexivity|]. split; [vm_compute; reflexivity|].
    split; [vm_compute; reflexivity|]. split; [vm_compute; reflexivity|].
    apply normalizePhones_example.
  - split; [vm_compute; reflexivity|]. split; vm_compute; reflexivity.
Qed.

(** The email rule on the no-charge paths: trim, then accept exactly the
    entries with "@", "." and more than five characters. *)
Lemma normalize_emails_rule raw x :
  x ∈ normalize_emails raw <-> exists email, email ∈ raw /\ email_rule email = Some x.
Proof.
  unfold normalize_emails, clean_emails_comprehensive.
  rewrite (clean_set_dedup_first clean_email). apply (elem_of_clean_set clean_email).
Qed.

Example normalize_emails_example :
  normalize_emails ["  a@b.com "; "a@b.com"; "bad"] = {["a@b.com"]}.
Proof.
  apply set_eq. intros x. rewrite normalize_emails_rule, elem_of_singleton. split.
  - intros (r & Hr & Hx).
    repeat (apply elem_of_cons in Hr as [->|Hr]; [vm_compute in Hx; first [discriminate | by injection Hx]|]).
    by apply elem_of_nil in Hr.
  - intros ->. exists "a@b.com". split; [apply list_elem_of_further, list_elem_of_here|reflexivity].
Qed.

(** C8: the purchase path accepts what the rule rejects.
    [extract_emails_from_data] validates with "@" and "." only, so the
    four-character entry "a@b." comes out of a purchase response, while
    the rule (and the sibling [find_emails_in_response_comprehensive], which
    also tests [len(email) > 5]) rejects it.  The last part runs the whole
    email lookup: nothing cached, nothing at the alternative endpoints,
    then a purchase that returns the entry. *)
Theorem C8_purchase_path_accepts_short_email :
  let data := JDict [("Email", JStr "a@b."); ("totalCost", JNum (1 # 25))] in
  extract_emails_from_data no_str data = ["a@b."] /\
  find_emails_in_response_comprehensive data = [] /\
  email_rule "a@b." = None /\
  value (get_emails_for_owner scripted no_str no_float float_of_double (JStr "P1")
           [Answer 200 "ok" (Some (JDict [("resultCount", JNum 0)]));
            Answer 404 "not found" None; Answer 404 "not found" None; Answer 404 "not found" None;
            Answer 404 "not found" None; Answer 404 "not found" None; Answer 404 "not found" None;
            Answer 200 "ok" (Some data)])
  = (["a@b."], 1 # 25).
Proof. vm_compute. repeat split; reflexivity. Qed.

(** C9. Both normalisers depend on the set of their inputs only (not on
    order or multiplicity), and re-applying them to their own output gives
    the same set: every output value is a fixed point of the rule. *)
Theorem C9_normalisers_order_independent_idempotent (raw1 raw2 : list string) :
  (forall r, r ∈ raw1 <-> r ∈ raw2) ->
  normalize_phones raw1 = normalize_phones raw2 /\
  normalize_emails_purchased raw1 = normalize_emails_purchased raw2 /\
  normalize_emails raw1 = normalize_emails raw2 /\
  normalize_phones (elements (normalize_phones raw1)) = normalize_phones raw1 /\
  normalize_emails_purchased (elements (normalize_emails_purchased raw1))
  = normalize_emails_purchased raw1 /\
  normalize_emails (elements (normalize_emails raw1)) = normalize_emails raw1 /\
  (forall x, x ∈ normalize_phones raw1 -> clean_phone x = Some x) /\
  (forall x, x ∈ normalize_emails_purchased raw1 -> clean_email_purchased x = Some x) /\
  (forall x, x ∈ normalize_emails raw1 -> clean_email x = Some x).
Proof.
  intros Hsame.
  assert (forall raw, normalize_emails raw = clean_set clean_email raw) as Hne.
  { intros raw. apply (clean_set_dedup_first clean_email). }
  rewrite !Hne.
  split; [by apply (clean_set_ext clean_phone)|].
  split; [by apply (clean_set_ext clean_email_purchased)|].
  split; [by apply (clean_set_ext clean_email)|].
  split; [apply (clean_set_idem clean_phone), clean_phone_fixed|].
  split; [apply (clean_set_idem clean_email_purchased), clean_email_purchased_fixed|].
  split; [apply (clean_set_idem clean_email), clean_email_fixed|].
  split; [|split]; intros x (r & _ & Hr)%elem_of_clean_set;
    eauto using clean_phone_fixed, clean_email_purchased_fixed, clean_email_fixed.
Qed.

Lemma C9_witness :
  normalize_phones ["555-123-4567"; "15551234567"; "123456789012"]
  = normalize_phones ["123456789012"; "15551234567"; "555-123-4567"; "15551234567"] /\
  normalize_phones (elements (normalize_phones ["555-123-4567"; "15551234567"; "123456789012"]))
  = normalize_phones ["555-123-4567"; "15551234567"; "123456789012"].
Proof.
  pose proof (C9_normalisers_order_independent_idempotent
                ["555-123-4567"; "15551234567"; "123456789012"]
                ["123456789012"; "15551234567"; "555-123-4567"; "15551234567"]) as H.
  destruct H as (H1 & _ & _ & H4 & _).
  - intros r. rewrite !elem_of_cons, !elem_of_nil. tauto.
  - split; [exact H1|exact H4].
Defined.

(** ** Contact-lookup sub-protocol *)

Section LookupFacts.
Context {World : Type}.
Variable send : World -> Request -> World * Response.
Variable float_of_string : string -> option Q.
Variable float_of_number : Q -> option Q.
Variable k : lookup.

Lemma io_bind_run {A B} (c : io World A) (f : A -> io World B) w :
  (c ≫= f) w
  = mkRun (value (f (value (c w)) (world (c w))))
          (world (f (value (c w)) (world (c w))))
          (trace (c w) ++ trace (f (value (c w)) (world (c w)))).
Proof. reflexivity. Qed.

Lemma http_run req w :
  http send req w = mkRun (send w req).2 (send w req).1 [req].
Proof. unfold http. by destruct (send w req). Qed.

Lemma get_cached_data_run url w :
  get_cached_data send float_of_string float_of_number k url w
  = mkRun (cached_contacts float_of_string float_of_number k (send w (mkRequest POST url 0 [])).2)
          (send w (mkRequest POST url 0 [])).1
          [mkRequest POST url 0 []].
Proof.
  unfold get_cached_data, mbind, io_bind, mret, io_ret. rewrite http_run. done.
Qed.

(** One attempt of the alternative-endpoints step: one request, and the
    result is what the extractor finds in its response, at no cost. *)
Lemma try_endpoint_run endpoint mode w :
  let req := mkRequest GET endpoint mode [] in
  try_endpoint send k endpoint mode w
  = mkRun (match found_in k (send w req).2 with
           | [] => None
           | found => Some (found, 0%Q)
           end)
          (send w req).1 [req].
Proof.
  unfold try_endpoint, mbind, io_bind, mret, io_ret, found_in. rewrite http_run. simpl.
  destruct (ok_body _); simpl; [|done]. by destruct (find_comprehensive k j).
Qed.

Lemma replay_app w reqs1 reqs2 :
  replay send w (reqs1 ++ reqs2)
  = replay send w reqs1 ++ replay send (after send w reqs1) reqs2.
Proof.
  revert w. induction reqs1 as [|req reqs1 IH]; intros w; simpl; [done|].
  by rewrite IH.
Qed.

Lemma after_app w reqs1 reqs2 :
  after send w (reqs1 ++ reqs2) = after send (after send w reqs1) reqs2.
Proof. revert w. induction reqs1 as [|req reqs1 IH]; intros w; simpl; [done|]. by rewrite IH. Qed.

Lemma probed_done w : probed send k [] w ((mret None : io World (option contacts)) w).
Proof.
  unfold probed, mret, io_ret. simpl. repeat split; try done.
Qed.

Lemma probed_try_endpoint endpoint mode w :
  probed send k [mkRequest GET endpoint mode []] w (try_endpoint send k endpoint mode w).
Proof.
  rewrite try_endpoint_run. unfold probed. simpl.
  split; [done|]. split; [done|].
  destruct (found_in k (send w _).2) as [|x xs] eqn:E; split; try done.
  - intros _. split; [done|]. by repeat constructor.
  - intros c [= <-]. exists [], (send w (mkRequest GET endpoint mode [])).2.
    rewrite E. repeat split; done.
Qed.

(** Sequencing two loops of attempts: the second runs only when the first
    found nothing. *)
Lemma probed_then reqs1 reqs2 w (first second : io World (option contacts)) :
  probed send k reqs1 w (first w) ->
  (forall w', probed send k reqs2 w' (second w')) ->
  probed send k (reqs1 ++ reqs2) w
    ((r ← first; match r with Some c => mret (Some c) | None => second end) w).
Proof.
  intros (Hpre & Hworld & Hnone & Hsome) Hsecond.
  unfold mbind, io_bind. simpl.
  destruct (value (first w)) as [c|] eqn:Hv.
  - unfold probed, mret, io_ret. simpl. rewrite app_nil_r.
    split; [by apply prefix_app_r|]. split; [done|]. split; [done|].
    intros c' [= <-]. by apply Hsome.
  - destruct (Hnone eq_refl) as [Htrace Hall].
    destruct (Hsecond (world (first w))) as (Hpre2 & Hworld2 & Hnone2 & Hsome2).
    rewrite Htrace in *. rewrite Hworld in *.
    unfold probed. simpl.
    split; [by apply prefix_app|].
    split; [by rewrite after_app|].
    split.
    + intros Hv2. destruct (Hnone2 Hv2) as [-> Hall2]. split; [done|].
      rewrite replay_app. by apply Forall_app.
    + intros c Hv2. destruct (Hsome2 c Hv2) as (earlier & resp & Hr & He & Hf & ->).
      exists (replay send w reqs1 ++ earlier), resp.
      rewrite replay_app, Hr, app_assoc. repeat split; try done.
      by apply Forall_app.
Qed.

Lemma probed_try_modes endpoint modes w :
  probed send k (map (fun mode => mkRequest GET endpoint mode []) modes) w
         (try_modes send k endpoint modes w).
Proof.
  revert w. induction modes as [|mode modes IH]; intros w; [apply probed_done|].
  apply (probed_then [_]); [apply probed_try_endpoint|done].
Qed.

Lemma probed_try_endpoints endpoints w :
  probed send k (flat_map (fun endpoint => map (fun mode => mkRequest GET endpoint mode []) [0; 1]%Z)
                   endpoints) w
         (try_endpoints send k endpoints w).
Proof.
  revert w. induction endpoints as [|endpoint endpoints IH]; intros w; [apply probed_done|].
  cbn [flat_map try_endpoints].
  apply probed_then; [apply probed_try_modes|done].
Qed.

(** The alternative-endpoints step, whatever the world answers. *)
Lemma alternative_step person_key w :
  let r := get_data_alternative_endpoints send k person_key w in
  trace r `prefix_of` alternative_requests person_key /\
  (value r).2 = 0%Q /\
  ((value r).1 = [] -> trace r = alternative_requests person_key) /\
  ((value r).1 <> [] ->
   exists earlier resp,
     replay send w (trace r) = earlier ++ [resp] /\
     Forall (fun resp => found_in k resp = []) earlier /\
     (value r).1 = found_in k resp).
Proof.
  pose proof (probed_try_endpoints (alternative_endpoints person_key) w) as Hp.
  fold (alternative_requests person_key) in Hp.
  unfold get_data_alternative_endpoints, mbind, io_bind, mret, io_ret.
  set (r0 := try_endpoints send k (alternative_endpoints person_key) w) in *.
  clearbody r0. cbn [value world trace]. rewrite app_nil_r.
  destruct Hp as (Hpre & _ & Hnone & Hsome).
  split; [done|].
  destruct (value r0) as [c|]; simpl.
  - destruct (Hsome c eq_refl) as (earlier & resp & Hr & He & Hf & ->). simpl.
    split; [done|]. split; [done|]. intros _. eauto.
  - destruct (Hnone eq_refl) as [Ht _]. split; [done|]. split; done.
Qed.

(** Every request of the alternative-endpoints step is a GET whose
    [Purchase] parameter is 0 or 1. *)
Lemma alternative_requests_shape person_key :
  Forall (fun req => method req = GET /\ (purchase req = 0 \/ purchase req = 1)%Z /\
                     endpoint req ∈ alternative_endpoints person_key)
         (alternative_requests person_key).
Proof.
  unfold alternative_requests, alternative_endpoints. simpl.
  repeat constructor; simpl; auto; set_solver.
Qed.

(** The lookup of an owner with a person key starts with the no-charge
    request, and issues nothing else when that request returns contacts. *)
Lemma lookup_cache_first person_key w :
  truthy person_key = true ->
  let first := mkRequest POST (lookup_url k person_key) 0 [] in
  let cached := get_cached_data send float_of_string float_of_number k (lookup_url k person_key) w in
  let r := get_contacts_for_owner send float_of_string float_of_number k person_key w in
  (exists rest, trace r = first :: rest) /\
  (nonempty (value cached).1 = true -> trace r = [first] /\ value r = value cached).
Proof.
  intros Hkey first cached r. subst r.
  unfold get_contacts_for_owner. rewrite Hkey. cbn [negb]. cbv zeta.
  rewrite io_bind_run. fold cached.
  assert (trace cached = [first]) as Hfirst.
  { subst cached. by rewrite get_cached_data_run. }
  clearbody cached. destruct cached as [[found cost] w' tr].
  cbn [value world trace fst] in *. subst tr. split; [by eexists|].
  intros ->. unfold mret, io_ret. done.
Qed.
End LookupFacts.

(** C1. For an owner with a person key, the phone lookup and the email
    lookup each issue as their first request the no-charge one
    ([POST .../Phone?Purchase=0], [POST .../Email?Purchase=0]), so a
    purchase is never the first attempt; and when the cached step returns a
    non-empty contact list, that request is the only one of the lookup: no
    purchase-mode request is issued and the cached result is returned. *)
Theorem C1_cached_lookup_first {World : Type}
    (send : World -> Request -> World * Response)
    (str_of_value : json -> string) (float_of_string : string -> option Q)
    (float_of_number : Q -> option Q)
    (person_key : json) (w : World) :
  truthy person_key = true ->
  let phone_first := mkRequest POST (PersonPhone person_key) 0 [] in
  let email_first := mkRequest POST (PersonEmail person_key) 0 [] in
  let phone := get_phone_numbers_for_owner send str_of_value float_of_string float_of_number person_key w in
  let email := get_emails_for_owner send str_of_value float_of_string float_of_number person_key w in
  let cached_phone :=
    get_cached_phone_data send str_of_value float_of_string float_of_number (PersonPhone person_key) w in
  let cached_email :=
    get_cached_email_data send str_of_value float_of_string float_of_number (PersonEmail person_key) w in
  (exists rest, trace phone = phone_first :: rest) /\
  (exists rest, trace email = email_first :: rest) /\
  (nonempty (value cached_phone).1 = true ->
   trace phone = [phone_first] /\ value phone = value cached_phone /\
   Forall (fun req => purchase req = 0%Z) (trace phone)) /\
  (nonempty (value cached_email).1 = true ->
   trace email = [email_first] /\ value email = value cached_email /\
   Forall (fun req => purchase req = 0%Z) (trace email)).
Proof.
  intros Hkey; cbv zeta.
  destruct (lookup_cache_first send float_of_string float_of_number (phone_lookup str_of_value)
              person_key w Hkey) as [Hp1 Hp2].
  destruct (lookup_cache_first send float_of_string float_of_number (email_lookup str_of_value)
              person_key w Hkey) as [He1 He2].
  split; [exact Hp1|]. split; [exact He1|]. split.
  - intros H. destruct (Hp2 H) as [Ht Hv]. split; [exact Ht|]. split; [exact Hv|].
    unfold get_phone_numbers_for_owner. rewrite Ht. by repeat constructor.
  - intros H. destruct (He2 H) as [Ht Hv]. split; [exact Ht|]. split; [exact Hv|].
    unfold get_emails_for_owner. rewrite Ht. by repeat constructor.
Qed.

Lemma C1_witness :
  let w := [Answer 200 "ok" (Some (JDict [("results", JList [JDict [("Phone", JStr "555-123-4567")]]);
                                         ("totalCost", JNum 0)]))] in
  trace (get_phone_numbers_for_owner scripted no_str no_float float_of_double (JStr "P1") w)
  = [mkRequest POST (PersonPhone (JStr "P1")) 0 []] /\
  value (get_phone_numbers_for_owner scripted no_str no_float float_of_double (JStr "P1") w)
  = (["(555) 123-4567"], 0%Q).
Proof.
  intros w.
  destruct (C1_cached_lookup_first scripted no_str no_float float_of_double (JStr "P1") w eq_refl)
    as (_ & _ & H & _).
  destruct H as (Ht & Hv & _); [vm_compute; reflexivity|].
  split; [exact Ht|]. rewrite Hv. vm_compute. reflexivity.
Defined.

(** ** Report loop *)

Section ReportFacts.
Context {World : Type}.
Variable send : World -> Request -> World * Response.
Variable str_of_value : json -> string.
Variable float_of_string : string -> option Q.
Variable float_of_number : Q -> option Q.

(** The property search issues at most one request, the property-match
    one. *)
Lemma search_property_trace address use_paid_search w :
  let s := search_property_with_propertyradar send address use_paid_search w in
  (length (trace s) <= 1)%nat /\ Forall (fun req => endpoint req = Properties) (trace s).
Proof.
  unfold search_property_with_propertyradar.
  destruct (parse_address address) as [components|]; cbv zeta.
  - rewrite io_bind_run, http_run. cbn. split; [lia|]. by repeat constructor.
  - cbn. split; [lia|]. constructor.
Qed.

Lemma main_step_no_property use_paid_search results item address w :
  extract_address item = Some address ->
  let s := search_property_with_propertyradar send address use_paid_search w in
  truthy (value s) = false ->
  main_step send str_of_value float_of_string float_of_number use_paid_search results item w
  = mkRun (Some (results ++ [mkReport address [] [] [] "No property data"]))
          (world s) (trace s).
Proof.
  intros Haddr s Hnone. unfold main_step. rewrite Haddr.
  destruct address as [|c address]; [by apply extract_address_nonempty in Haddr|].
  rewrite io_bind_run. cbv beta. fold s. rewrite Hnone. cbn [negb].
  unfold mret, io_ret. cbn [value world trace]. by rewrite app_nil_r.
Qed.

Lemma process_step_no_property use_paid_search results item address w :
  extract_address item = Some address ->
  let s := Finder.search_properties_by_address send address use_paid_search w in
  value s = None ->
  Finder.process_step send str_of_value use_paid_search results item w
  = mkRun (results ++ [Finder.mkPhoneRecord (item_id item) address [] [] "Property not found"])
          (world s)
          [mkRequest POST Properties (if use_paid_search then 1 else 0)
                     [("Address", [address])]].
Proof.
  intros Haddr s Hnone. unfold Finder.process_step. rewrite Haddr.
  destruct address as [|c address]; [by apply extract_address_nonempty in Haddr|].
  rewrite io_bind_run. cbv beta. fold s.
  assert (trace s = [mkRequest POST Properties (if use_paid_search then 1 else 0)
                               [("Address", [String c address])]]) as Htrace.
  { subst s. unfold Finder.search_properties_by_address.
    by rewrite io_bind_run, http_run. }
  clearbody s. destruct s as [v w' t]. cbn [value world trace] in *. subst v t.
  unfold mret, io_ret. done.
Qed.

Lemma main_loop_cons use_paid_search results item rest w :
  main_loop send str_of_value float_of_string float_of_number use_paid_search results (item :: rest) w
  = let r := main_step send str_of_value float_of_string float_of_number use_paid_search results item w in
    match value r with
    | None => mkRun None (world r) (trace r ++ [])
    | Some results' =>
        let r' := main_loop send str_of_value float_of_string float_of_number use_paid_search results' rest
                            (world r) in
        mkRun (value r') (world r') (trace r ++ trace r')
    end.
Proof.
  cbn [main_loop]. rewrite io_bind_run. cbv zeta.
  by destruct (value (main_step _ _ _ _ _ _ _ _)).
Qed.
End ReportFacts.

(** C3, as stated, fails on the status: when the property search returns
    no match, [main] records the status "No property data". *)
Lemma C3_counterexample :
  let item := mkItem "1" "12 Oak Ave, Reno, NV 89501" [] in
  let w := [Answer 200 "ok" (Some (JDict [("results", JList []); ("resultCount", JNum 0)]))] in
  value (main_step scripted no_str no_float float_of_double true [] item w)
  = Some [mkReport "12 Oak Ave, Reno, NV 89501" [] [] [] "No property data"] /\
  ~ (exists record,
       value (main_step scripted no_str no_float float_of_double true [] item w) = Some [record] /\
       status record = "property not found").
Proof.
  vm_compute. split; [done|]. intros (record & [= <-] & H). discriminate H.
Qed.

(** C3, amended. For every item whose address gets no match from the
    property search, the loop appends exactly one record with empty owners
    and phones and goes on to the next item, having issued no request
    beyond the property-match attempt.  In [final_working_script.py] the
    record has status "No property data" and empty emails; in
    [final_property_radar_phone_finder.py] it has status
    "Property not found" and no emails field. *)
Theorem C3_no_property_record {World : Type}
    (send : World -> Request -> World * Response)
    (str_of_value : json -> string) (float_of_string : string -> option Q)
    (float_of_number : Q -> option Q)
    (use_paid_search : bool) (item : Item) (address : string) (rest : list Item)
    (results : list ReportRecord) (results' : list Finder.PhoneRecord) (w : World) :
  extract_address item = Some address ->
  let s := search_property_with_propertyradar send address use_paid_search w in
  let r := main_step send str_of_value float_of_string float_of_number use_paid_search results item w in
  let record := mkReport address [] [] [] "No property data" in
  let next := main_loop send str_of_value float_of_string float_of_number use_paid_search
                        (results ++ [record]) rest (world s) in
  let loop := main_loop send str_of_value float_of_string float_of_number use_paid_search
                        results (item :: rest) w in
  let s' := Finder.search_properties_by_address send address use_paid_search w in
  let r' := Finder.process_step send str_of_value use_paid_search results' item w in
  (truthy (value s) = false ->
   value r = Some (results ++ [record]) /\
   trace r = trace s /\
   (length (trace r) <= 1)%nat /\
   Forall (fun req => endpoint req = Properties) (trace r) /\
   value loop = value next /\ trace loop = trace s ++ trace next) /\
  (value s' = None ->
   value r' = results' ++ [Finder.mkPhoneRecord (item_id item) address [] [] "Property not found"] /\
   trace r' = trace s' /\
   trace r' = [mkRequest POST Properties (if use_paid_search then 1 else 0)
                         [("Address", [address])]]).
Proof.
  intros Haddr; cbv zeta. split.
  - intros Hnone.
    pose proof (main_step_no_property send str_of_value float_of_string float_of_number
                  use_paid_search results item address w Haddr Hnone) as Hstep.
    rewrite main_loop_cons. cbv zeta. rewrite Hstep. cbn [value world trace].
    destruct (search_property_trace send address use_paid_search w) as [Hlen Hall].
    repeat split; done.
  - intros Hnone.
    rewrite (process_step_no_property send str_of_value use_paid_search results' item
               address w Haddr Hnone).
    cbn [value world trace]. split; [done|]. split; [|done].
    unfold Finder.search_properties_by_address. rewrite io_bind_run, http_run. done.
Qed.

Lemma C3_witness :
  let item := mkItem "1" "12 Oak Ave, Reno, NV 89501" [] in
  let w := [Answer 200 "ok" (Some (JDict [("results", JList []); ("resultCount", JNum 0)]))] in
  value (main_step scripted no_str no_float float_of_double true [] item w)
  = Some [mkReport "12 Oak Ave, Reno, NV 89501" [] [] [] "No property data"] /\
  trace (main_step scripted no_str no_float float_of_double true [] item w)
  = [mkRequest POST Properties 1
       [("Address", ["12 Oak Ave"]); ("City", ["Reno"]); ("State", ["NV"]);
        ("ZipFive", ["89501"])]] /\
  value (Finder.process_step scripted no_str true [] item w)
  = [Finder.mkPhoneRecord "1" "12 Oak Ave, Reno, NV 89501" [] [] "Property not found"].
Proof.
  intros item w.
  destruct (C3_no_property_record scripted no_str no_float float_of_double true item
              "12 Oak Ave, Reno, NV 89501" [] [] [] w eq_refl) as [Hmain Hfinder].
  destruct Hmain as (Hv & Ht & _); [vm_compute; reflexivity|].
  destruct Hfinder as (Hv' & _); [vm_compute; reflexivity|].
  split; [exact Hv|]. split; [|exact Hv'].
  rewrite Ht. vm_compute. reflexivity.
Defined.

(* ===================================================================== *)
(** * Further properties of the code *)
(* ===================================================================== *)

(** ** The matcher on the program's patterns *)

Lemma app_cons c s t : String c s +:+ t = String c (s +:+ t).
Proof. reflexivity. Qed.

Lemma app_empty t : EmptyString +:+ t = t.
Proof. reflexivity. Qed.

Lemma length_app s t : String.length (s +:+ t) = (String.length s + String.length t)%nat.
Proof. induction s as [|c s IH]; [done|]. rewrite app_cons. simpl. by rewrite IH. Qed.



Lemma substring_prefix pre rest :
  String.substring 0 (String.length pre) (pre +:+ rest) = pre.
Proof.
  induction pre as [|c pre IH]; [by destruct rest|].
  rewrite app_cons. simpl. by rewrite IH.
Qed.

(** What a group captures: the text between its start and the rest. *)
Lemma consumed_app pre rest : Re.consumed (pre +:+ rest) rest = pre.
Proof.
  unfold Re.consumed. rewrite length_app.
  replace (String.length pre + String.length rest - String.length rest)%nat
    with (String.length pre) by lia.
  apply substring_prefix.
Qed.

Section MatcherFacts.
Context {A : Type}.
Implicit Types (k : @Re.cont A) (p : ascii -> bool).

Lemma m_rep_sound p n s caps k r :
  Re.m_rep p n s caps k = Some r ->
  exists pre rest,
    s = pre +:+ rest /\ String.length pre = n /\ Py.all_char p pre = true /\
    k rest caps = Some r.
Proof.
  revert s. induction n as [|n IH]; intros s; simpl.
  - intros H. by exists EmptyString, s.
  - destruct s as [|c s]; [done|]. destruct (p c) eqn:Hc; [|done].
    intros (pre & rest & -> & <- & Hall & Hk)%IH.
    exists (String c pre), rest. simpl. by rewrite Hc, Hall.
Qed.

Lemma m_rep_complete p pre rest caps k :
  Py.all_char p pre = true ->
  Re.m_rep p (String.length pre) (pre +:+ rest) caps k = k rest caps.
Proof.
  induction pre as [|c pre IH]; [done|].
  intros [Hc Hall]%andb_true_iff. rewrite app_cons. simpl. rewrite Hc. auto.
Qed.

Lemma m_plus_sound p s caps k r :
  Re.m_plus p s caps k = Some r ->
  exists pre rest,
    s = pre +:+ rest /\ pre <> EmptyString /\ Py.all_char p pre = true /\
    k rest caps = Some r.
Proof.
  induction s as [|c s IH]; simpl; [done|].
  destruct (p c) eqn:Hc; [|done].
  destruct (Re.m_plus p s caps k) as [r'|] eqn:E.
  - intros [= ->]. destruct (IH eq_refl) as (pre & rest & -> & _ & Hall & Hk).
    exists (String c pre), rest. simpl. by rewrite Hc, Hall.
  - intros Hk. exists (String c EmptyString), s. simpl. by rewrite Hc.
Qed.

Lemma m_plus_lazy_sound p s caps k r :
  Re.m_plus_lazy p s caps k = Some r ->
  exists pre rest,
    s = pre +:+ rest /\ pre <> EmptyString /\ Py.all_char p pre = true /\
    k rest caps = Some r.
Proof.
  induction s as [|c s IH]; simpl; [done|].
  destruct (p c) eqn:Hc; [|done].
  destruct (k s caps) as [r'|] eqn:E.
  - intros [= ->]. exists (String c EmptyString), s. simpl. by rewrite Hc.
  - intros (pre & rest & -> & _ & Hall & Hk)%IH.
    exists (String c pre), rest. simpl. by rewrite Hc, Hall.
Qed.

End MatcherFacts.

(** The groups of a match of [([A-Za-z]{2})\s+(\d{5})]. *)
Lemma state_zip_groups s groups :
  Re.re_match Re.state_zip_re s = Some groups ->
  exists st spaces digits rest,
    groups = [st; digits] /\
    s = st +:+ spaces +:+ digits +:+ rest /\
    String.length st = 2%nat /\ Py.all_char Py.re_alpha st = true /\
    spaces <> EmptyString /\ Py.all_char Py.isspace spaces = true /\
    String.length digits = 5%nat /\ Py.all_char Py.re_digit digits = true.
Proof.
  unfold Re.re_match, Re.state_zip_re. cbn [Re.m].
  intros (st & r1 & -> & Hst & Hast & H)%m_rep_sound.
  rewrite consumed_app in H.
  apply m_plus_sound in H as (spaces & r2 & -> & Hsp & Hasp & H).
  apply m_rep_sound in H as (digits & rest & -> & Hd & Had & H).
  rewrite consumed_app in H. injection H as <-.
  exists st, spaces, digits, rest. done.
Qed.

(** The groups of a match of [(.+?),?\s+([A-Za-z]{2})\s+(\d{5})]. *)
Lemma city_state_zip_groups s groups :
  Re.re_match Re.city_state_zip_re s = Some groups ->
  exists town st digits,
    groups = [town; st; digits] /\
    town <> EmptyString /\ Py.all_char Py.re_dot town = true /\
    String.prefix town s = true /\
    String.length st = 2%nat /\ Py.all_char Py.re_alpha st = true /\
    String.length digits = 5%nat /\ Py.all_char Py.re_digit digits = true.
Proof.
  unfold Re.re_match, Re.city_state_zip_re. cbn [Re.m].
  intros (town & r1 & -> & Htown & Hatown & H)%m_plus_lazy_sound.
  rewrite consumed_app in H.
  assert (forall r caps,
    Re.m_plus Py.isspace r caps
      (fun s' caps' =>
         Re.m_rep Py.re_alpha 2 s' caps'
           (fun s'0 caps'0 =>
              Re.m_plus Py.isspace s'0 (Re.consumed s' s'0 :: caps'0)
                (fun s'1 caps'1 =>
                   Re.m_rep Py.re_digit 5 s'1 caps'1
                     (fun s'2 caps'2 => Some (rev (Re.consumed s'1 s'2 :: caps'2))))))
    = Some groups ->
    exists st digits,
      groups = rev (digits :: st :: caps) /\
      String.length st = 2%nat /\ Py.all_char Py.re_alpha st = true /\
      String.length digits = 5%nat /\ Py.all_char Py.re_digit digits = true) as Htail.
  { intros r caps (sp & r2 & -> & _ & _ & H')%m_plus_sound.
    apply m_rep_sound in H' as (st & r3 & -> & Hst & Hast & H').
    rewrite consumed_app in H'.
    apply m_plus_sound in H' as (sp2 & r4 & -> & _ & _ & H').
    apply m_rep_sound in H' as (digits & rest & -> & Hd & Had & H').
    rewrite consumed_app in H'. injection H' as <-. eauto 10. }
  assert (String.prefix town (town +:+ r1) = true) as Hpre.
  { clear. induction town as [|c town IH]; [by destruct r1|].
    rewrite app_cons. simpl. by destruct (ascii_dec c c). }
  cbn [Re.m_rep] in H.
  destruct r1 as [|c r1].
  - apply Htail in H as (st & digits & -> & ?). exists town, st, digits. done.
  - destruct (Re.is_char "," c).
    + destruct (Re.m_plus _ r1 _ _) eqn:E.
      * injection H as ->. apply Htail in E as (st & digits & -> & ?).
        exists town, st, digits. done.
      * apply Htail in H as (st & digits & -> & ?). exists town, st, digits. done.
    + apply Htail in H as (st & digits & -> & ?). exists town, st, digits. done.
Qed.

(** ** Address parser: what a successful parse looks like *)

Lemma upper_char_alpha c :
  Py.re_alpha c = true -> Py.between 65 90 (Py.upper_char c) = true.
Proof. destruct c as [[] [] [] [] [] [] [] []]; vm_compute; done. Qed.

Lemma upper_alpha s :
  Py.all_char Py.re_alpha s = true ->
  Py.all_char (Py.between 65 90) (Py.upper s) = true /\
  String.length (Py.upper s) = String.length s.
Proof.
  unfold Py.upper. induction s as [|c s IH]; [done|]. simpl.
  intros [Hc Hs]%andb_true_iff. destruct (IH Hs) as [-> ->].
  by rewrite (upper_char_alpha c Hc).
Qed.

(** X2. Whenever [parse_address] succeeds, the input had at least two
    comma-separated segments, the street is the trimmed first segment, the
    state is two upper-case letters A-Z and the zip is five decimal
    digits. *)
Theorem parse_address_wellformed (raw : string) (c : AddressComponents) :
  parse_address raw = Some c ->
  (2 <= length (Py.split "," raw))%nat /\
  street c = Py.strip (part (Py.split "," raw) 0) /\
  String.length (state c) = 2%nat /\
  Py.all_char (Py.between 65 90) (state c) = true /\
  String.length (zip c) = 5%nat /\
  Py.all_char Py.re_digit (zip c) = true.
Proof.
  assert (forall s0 s1 c,
    match Re.re_match Re.city_state_zip_re s1 with
    | Some [g1; g2; g3] => Some (mkAddress s0 (Py.strip g1) (Py.upper g2) g3)
    | _ => None
    end = Some c ->
    street c = s0 /\
    String.length (state c) = 2%nat /\
    Py.all_char (Py.between 65 90) (state c) = true /\
    String.length (zip c) = 5%nat /\
    Py.all_char Py.re_digit (zip c) = true) as Hcombined.
  { intros s0 s1 c'.
    destruct (Re.re_match Re.city_state_zip_re s1) as [groups|] eqn:E; [|done].
    apply city_state_zip_groups in E
      as (town & st & digits & -> & _ & _ & _ & Hst & Hast & Hd & Had).
    intros [= <-]. simpl. destruct (upper_alpha st Hast) as [-> ->]. done. }
  rewrite parse_address_fallthrough. unfold parse_fallthrough, part.
  destruct (Py.split "," raw) as [|p0 [|p1 [|p2 rest]]]; simpl; try done.
  - intros H. apply Hcombined in H. split; [lia|]. done.
  - destruct (Re.re_match Re.state_zip_re (Py.strip p2)) as [groups|] eqn:E.
    + apply state_zip_groups in E
        as (st & spaces & digits & rest' & -> & _ & Hst & Hast & _ & _ & Hd & Had).
      intros [= <-]. simpl. destruct (upper_alpha st Hast) as [-> ->].
      split; [lia|]. done.
    + intros H. apply Hcombined in H. split; [lia|]. done.
Qed.

Lemma parse_address_wellformed_witness :
  let c := mkAddress "4097 Al Highway 69" "Guntersville" "AL" "35976" in
  (2 <= length (Py.split "," "4097 Al Highway 69, Guntersville, Al 35976"))%nat /\
  street c = Py.strip (part (Py.split "," "4097 Al Highway 69, Guntersville, Al 35976") 0) /\
  String.length (state c) = 2%nat /\
  Py.all_char (Py.between 65 90) (state c) = true /\
  String.length (zip c) = 5%nat /\
  Py.all_char Py.re_digit (zip c) = true.
Proof.
  apply (parse_address_wellformed "4097 Al Highway 69, Guntersville, Al 35976").
  vm_compute. reflexivity.
Defined.

(** ** Address parser: the documented format always parses *)

Lemma contains_comma_cons c s :
  Py.contains "," (String c s) = Ascii.eqb c "," || Py.contains "," s.
Proof.
  cbn [Py.contains String.prefix].
  destruct (Ascii.eqb_spec c ",") as [->|Hne].
  - destruct (ascii_dec "," ","); [by destruct s|done].
  - destruct (ascii_dec "," c); [congruence|done].
Qed.

Lemma split_no_comma s : Py.contains "," s = false -> Py.split "," s = [s].
Proof.
  induction s as [|c s IH]; [done|].
  rewrite contains_comma_cons. intros [Hc Hs]%orb_false_iff.
  cbn [Py.split]. rewrite Hc, (IH Hs). done.
Qed.

Lemma split_at_comma pre rest :
  Py.contains "," pre = false ->
  Py.split "," (pre +:+ String "," rest) = pre :: Py.split "," rest.
Proof.
  induction pre as [|c pre IH]; [done|].
  rewrite contains_comma_cons. intros [Hc Hs]%orb_false_iff.
  rewrite app_cons. cbn [Py.split]. rewrite Hc, (IH Hs). done.
Qed.

Lemma class_not_comma_space c :
  Py.re_alpha c || Py.re_digit c = true ->
  Ascii.eqb c "," = false /\ Py.isspace c = false.
Proof. destruct c as [[] [] [] [] [] [] [] []]; vm_compute; done. Qed.

(** Nothing is trimmed at the end of a string whose last character is
    not whitespace. *)
Lemma rstrip_snoc s c :
  Py.isspace c = false -> Py.rstrip (s +:+ String c EmptyString) = s +:+ String c EmptyString.
Proof.
  intros Hc. induction s as [|x s IH].
  - rewrite app_empty. cbn [Py.rstrip]. by rewrite Hc.
  - rewrite app_cons. cbn [Py.rstrip]. rewrite IH.
    destruct s; rewrite ?app_cons, ?app_empty; simpl; by rewrite andb_false_r.
Qed.

Lemma strip_leading_space s : Py.strip (String " " s) = Py.strip s.
Proof. reflexivity. Qed.

(** X1. An address written as "<street>, <city>, <ST> <5 digits>", with no
    comma inside the street and the city, parses into its trimmed street
    and city, the upper-cased state and the zip. *)
Theorem parse_address_of_format (street city st zip : string) :
  Py.contains "," street = false ->
  Py.contains "," city = false ->
  String.length st = 2%nat -> Py.all_char Py.re_alpha st = true ->
  String.length zip = 5%nat -> Py.all_char Py.re_digit zip = true ->
  parse_address (street +:+ ", " +:+ city +:+ ", " +:+ st +:+ " " +:+ zip)
  = Some (mkAddress (Py.strip street) (Py.strip city) (Py.upper st) zip).
Proof.
  intros Hstreet Hcity Hst Hast Hzip Hazip.
  destruct st as [|a [|b [|? ?]]]; try discriminate.
  destruct zip as [|d1 [|d2 [|d3 [|d4 [|d5 [|? ?]]]]]]; try discriminate.
  cbn [Py.all_char] in Hast, Hazip.
  apply andb_true_iff in Hast as [Ha Hast]. apply andb_true_iff in Hast as [Hb _].
  apply andb_true_iff in Hazip as [Hd1 Hazip]. apply andb_true_iff in Hazip as [Hd2 Hazip].
  apply andb_true_iff in Hazip as [Hd3 Hazip]. apply andb_true_iff in Hazip as [Hd4 Hazip].
  apply andb_true_iff in Hazip as [Hd5 _].
  assert (forall c, Py.re_alpha c = true -> Ascii.eqb c "," = false /\ Py.isspace c = false)
    as Halpha by (intros c Hc; apply class_not_comma_space; by rewrite Hc).
  assert (forall c, Py.re_digit c = true -> Ascii.eqb c "," = false /\ Py.isspace c = false)
    as Hdigit by (intros c Hc; apply class_not_comma_space; by rewrite Hc, orb_true_r).
  destruct (Halpha a Ha) as [Ha1 Ha2]. destruct (Halpha b Hb) as [Hb1 Hb2].
  destruct (Hdigit d1 Hd1) as [H11 H12]. destruct (Hdigit d2 Hd2) as [H21 H22].
  destruct (Hdigit d3 Hd3) as [H31 H32]. destruct (Hdigit d4 Hd4) as [H41 H42].
  destruct (Hdigit d5 Hd5) as [H51 H52].
  set (zip := String d1 (String d2 (String d3 (String d4 (String d5 EmptyString))))).
  set (tail := String a (String b (String " " zip))).
  assert (street +:+ ", " +:+ city +:+ ", " +:+ String a (String b EmptyString) +:+ " " +:+ zip
          = street +:+ String "," (String " " city +:+ String "," (String " " tail)))
    as -> by done.
  assert (Py.contains "," (String " " tail) = false) as Htail.
  { subst tail zip. repeat rewrite contains_comma_cons.
    rewrite Ha1, Hb1, H11, H21, H31, H41, H51. done. }
  unfold parse_address.
  rewrite (split_at_comma street _ Hstreet).
  rewrite split_at_comma by (rewrite contains_comma_cons, Hcity; done).
  rewrite (split_no_comma _ Htail).
  cbn [length Nat.leb part nth]. rewrite !strip_leading_space.
  assert (Py.strip tail = tail) as ->.
  { subst tail zip. unfold Py.strip. cbn [Py.lstrip]. rewrite Ha2.
    apply (rstrip_snoc (String a (String b (String " " (String d1 (String d2
                          (String d3 (String d4 EmptyString))))))) d5 H52). }
  subst tail zip. unfold Re.re_match, Re.state_zip_re.
  cbn [Re.m Re.m_rep Re.m_plus]. rewrite Ha, Hb.
  change (Py.isspace " ") with true. cbv iota. rewrite H12. cbv iota.
  rewrite Hd1, Hd2, Hd3, Hd4, Hd5.
  reflexivity.
Qed.

Lemma parse_address_of_format_witness :
  parse_address ("400 LAS COLINAS BLVD E" +:+ ", " +:+ "IRVING" +:+ ", " +:+ "tx" +:+ " " +:+ "75039")
  = Some (mkAddress "400 LAS COLINAS BLVD E" "IRVING" "TX" "75039").
Proof.
  apply (parse_address_of_format "400 LAS COLINAS BLVD E" "IRVING" "tx" "75039");
    vm_compute; reflexivity.
Defined.

(** ** The digit pattern and the no-charge phone extractor *)










(** The branch decides what the cleaning loop appends. *)
Lemma clean_phone_by_branch phone :
  clean_phone phone
  = let digits := digits_of phone in
    match clean_phone_branch phone with
    | TenDigits =>
        Some ("(" +:+ Py.slice 0 3 digits +:+ ") " +:+ Py.slice 3 6 digits
                  +:+ "-" +:+ Py.slice_from 6 digits)
    | ElevenDigits =>
        Some ("(" +:+ Py.slice 1 4 digits +:+ ") " +:+ Py.slice 4 7 digits
                  +:+ "-" +:+ Py.slice_from 7 digits)
    | KeptAsIs => Some phone
    | Discarded => None
    end.
Proof.
  unfold clean_phone, clean_phone_branch. cbv zeta.
  destruct (String.length (digits_of phone) =? 10)%nat; [done|].
  destruct ((String.length (digits_of phone) =? 11)%nat && String.prefix "1" (digits_of phone));
    [done|].
  by destruct (10 <=? String.length (digits_of phone))%nat.
Qed.



(** ** The fuzzy extractor reaches every entry *)

Section SearchComplete.
Variable indicators : list string.
Variable candidate : string -> list string.

Lemma has_entry_container v key value : has_entry v key value -> is_container v = true.
Proof. by destruct 1. Qed.

Lemma found_items path d k v x :
  In (k, v) d ->
  x ∈ found (search_entry indicators candidate path k v) ->
  x ∈ found (search_items indicators candidate path d).
Proof.
  induction d as [|[k' v'] d IH]; [done|]. cbn [search_items walk_app found].
  intros [[= -> ->]|Hin] Hx; apply elem_of_app; [by left|right; auto].
Qed.

Lemma found_elems l v x :
  In v l ->
  (forall path, x ∈ found (search_recursive indicators candidate v path)) ->
  forall path, x ∈ found (search_recursive indicators candidate (JList l) path).
Proof.
  intros Hin Hv path. cbn [search_recursive walk_call found].
  generalize 0%nat. induction l as [|item l IH]; [done|]. intros i.
  cbn [walk_app found]. apply elem_of_app.
  destruct Hin as [->|Hin]; [left; apply Hv|right; by apply IH].
Qed.

Lemma found_complete obj key value x :
  has_entry obj key (JStr value) ->
  key_matches indicators key = true ->
  x ∈ candidate value ->
  forall path, x ∈ found (search_recursive indicators candidate obj path).
Proof.
  intros Hentry Hkey Hx.
  remember (JStr value) as leaf eqn:Hleaf.
  induction Hentry as [d key value' Hin|d k v key value' Hin Hsub IH|l v key value' Hin Hsub IH];
    subst; intros path.
  - rewrite search_recursive_dict. cbn [walk_call found].
    apply (found_items path d key (JStr value) x Hin).
    unfold search_entry. by rewrite Hkey.
  - rewrite search_recursive_dict. cbn [walk_call found].
    apply (found_items path d k v x Hin).
    rewrite search_entry_container by eauto using has_entry_container.
    by apply IH.
  - apply (found_elems l v x Hin). by apply IH.
Qed.
End SearchComplete.

(** X4. The candidates of a traversal are exactly the candidates of the
    string values that sit, at any depth, under a key containing an
    indicator: nesting never hides an entry and a key without indicator
    never contributes. *)
Theorem search_finds_exactly_matching_entries
    (indicators : list string) (candidate : string -> list string)
    (data : json) (path x : string) :
  x ∈ found (search_recursive indicators candidate data path) <->
  exists key value,
    has_entry data key (JStr value) /\
    key_matches indicators key = true /\
    x ∈ candidate value.
Proof.
  split.
  - apply found_sound.
  - intros (key & value & He & Hk & Hx). by eapply found_complete.
Qed.

(** ** The contact lookup as a whole *)

Section LookupShape.
Context {World : Type}.
Variable send : World -> Request -> World * Response.
Variable float_of_string : string -> option Q.
Variable float_of_number : Q -> option Q.
Variable k : lookup.




(** The run of a lookup, step by step. *)
Lemma get_contacts_for_owner_run person_key w :
  truthy person_key = true ->
  let url := lookup_url k person_key in
  let cached := get_cached_data send float_of_string float_of_number k url w in
  let alt := get_data_alternative_endpoints send k person_key (world cached) in
  let bought := http send (mkRequest POST url 1 []) (world alt) in
  get_contacts_for_owner send float_of_string float_of_number k person_key w
  = if nonempty (value cached).1 then mkRun (value cached) (world cached) (trace cached)
    else if nonempty (value alt).1
         then mkRun (value alt) (world alt) (trace cached ++ trace alt)
         else mkRun (purchased_contacts float_of_string float_of_number k (value bought)) (world bought)
                    (trace cached ++ trace alt ++ trace bought).
Proof.
  intros Hkey. cbv zeta. unfold get_contacts_for_owner. rewrite Hkey. cbn [negb]. cbv zeta.
  unfold contacts in *.
  rewrite io_bind_run. cbv beta.
  set (cached := get_cached_data send float_of_string float_of_number k (lookup_url k person_key) w).
  clearbody cached. destruct cached as [[cfound ccost] w1 t1].
  cbn [value world trace fst]. destruct (nonempty cfound).
  { unfold mret, io_ret. cbn [value world trace]. by rewrite app_nil_r. }
  rewrite io_bind_run. cbv beta.
  set (alt := get_data_alternative_endpoints send k person_key w1).
  clearbody alt. destruct alt as [[afound acost] w2 t2].
  cbn [value world trace fst]. destruct (nonempty afound).
  { unfold mret, io_ret. cbn [value world trace]. by rewrite app_nil_r. }
  rewrite io_bind_run. unfold mret, io_ret. cbn [value world trace]. by rewrite app_nil_r.
Qed.
End LookupShape.

Section LookupWhole.
Context {World : Type}.
Variable send : World -> Request -> World * Response.
Variable float_of_string : string -> option Q.
Variable float_of_number : Q -> option Q.
Variable k : lookup.

Lemma lookup_has_shape person_key w :
  truthy person_key = true ->
  lookup_shape k person_key (get_contacts_for_owner send float_of_string float_of_number k person_key w).
Proof.
  intros Hkey. rewrite (get_contacts_for_owner_run send float_of_string float_of_number k person_key w Hkey).
  cbv zeta. rewrite get_cached_data_run. cbn [value world trace].
  set (w1 := (send w _).1).
  destruct (alternative_step send k person_key w1) as (Hpre & _ & Hfull & _).
  destruct (nonempty _).
  { exists []. split; [apply prefix_nil|]. by left. }
  destruct (nonempty (value (get_data_alternative_endpoints send k person_key w1)).1) eqn:E.
  { eexists. split; [exact Hpre|]. by left. }
  exists (alternative_requests person_key). split; [done|]. right. split; [done|].
  rewrite http_run. cbn [trace]. rewrite Hfull; [done|].
  by destruct (value (get_data_alternative_endpoints send k person_key w1)).1.
Qed.

Lemma lookup_shape_length person_key (r : run World contacts) :
  lookup_shape k person_key r -> (length (trace r) <= 8)%nat.
Proof.
  intros (alt & Hpre & [->| [-> ->]]).
  - apply prefix_length in Hpre. cbn in *. lia.
  - cbn. lia.
Qed.



End LookupWhole.

(** ** The alternative-endpoints step, in full *)

Lemma purchase_requests_prefix (tr reqs : list Request) :
  tr `prefix_of` reqs ->
  (length (purchase_requests tr) <= length (purchase_requests reqs))%nat.
Proof.
  intros [rest ->]. unfold purchase_requests. rewrite List.filter_app, List.length_app. lia.
Qed.

Lemma purchase_requests_alternative person_key :
  length (purchase_requests (alternative_requests person_key)) = 3%nat.
Proof. reflexivity. Qed.

Section AlternativeStep.
Context {World : Type}.
Variable send : World -> Request -> World * Response.
Variable k : lookup.

(** The result of the step is decided by the first response that holds
    contacts: there is none exactly when the step returns nothing. *)
Lemma alternative_step_exact person_key w :
  let r := get_data_alternative_endpoints send k person_key w in
  ((value r).1 = [] <->
   trace r = alternative_requests person_key /\
   Forall (fun resp => found_in k resp = [])
          (replay send w (alternative_requests person_key))) /\
  ((value r).1 <> [] ->
   exists earlier resp,
     replay send w (trace r) = earlier ++ [resp] /\
     Forall (fun resp => found_in k resp = []) earlier /\
     found_in k resp <> [] /\
     (value r).1 = found_in k resp).
Proof.
  pose proof (probed_try_endpoints send k (alternative_endpoints person_key) w) as Hp.
  fold (alternative_requests person_key) in Hp.
  unfold get_data_alternative_endpoints, mbind, io_bind, mret, io_ret.
  set (r0 := try_endpoints send k (alternative_endpoints person_key) w) in *.
  clearbody r0. cbn [value world trace]. rewrite app_nil_r.
  destruct Hp as (_ & _ & Hnone & Hsome).
  destruct (value r0) as [c|]; cbn [default].
  - destruct (Hsome c eq_refl) as (earlier & resp & Hr & He & Hf & ->). cbn [fst].
    split; [|intros _; eauto 10]. split; [done|].
    intros [Ht Hall]. rewrite Ht in Hr. rewrite Hr in Hall.
    apply Forall_app in Hall as [_ Hall]. by inversion Hall.
  - destruct (Hnone eq_refl) as [Ht Hall]. split; [|done]. done.
Qed.
End AlternativeStep.

Section LookupPurchases.
Context {World : Type}.
Variable send : World -> Request -> World * Response.
Variable float_of_string : string -> option Q.
Variable float_of_number : Q -> option Q.
Variable k : lookup.

(** A whole lookup sends at most four purchase-mode requests: three in
    the alternative-endpoints step and the purchase itself. *)
Lemma lookup_purchase_requests person_key w :
  (length (purchase_requests
             (trace (get_contacts_for_owner send float_of_string float_of_number k
                       person_key w))) <= 4)%nat.
Proof.
  destruct (truthy person_key) eqn:Hkey.
  - destruct (lookup_has_shape send float_of_string float_of_number k person_key w Hkey)
      as (alt & Hpre & [->|[-> ->]]).
    + apply purchase_requests_prefix in Hpre.
      rewrite purchase_requests_alternative in Hpre.
      unfold purchase_requests in *. cbn [List.filter purchase Z.eqb]. lia.
    + unfold purchase_requests. cbn. lia.
  - unfold get_contacts_for_owner. rewrite Hkey. cbn. lia.
Qed.
End LookupPurchases.

(** C4, as stated, fails: the alternative-endpoints step issues
    purchase-mode requests, and more than one for the same owner.
    First world: the person-details endpoint answers nothing with
    [Purchase=0] and a phone with [Purchase=1]; the step issues that
    [Purchase=1] request, accepts its result and records cost 0 for it.
    Second world: every alternative request is answered, with status 200
    and no contacts; the step sends three purchase-mode requests and the
    lookup a fourth, the purchase itself, so that four purchase-mode
    requests are sent for one owner in one lookup. *)
Lemma C4_counterexample :
  (let w := [Answer 200 "ok" (Some (JDict []));
             Answer 200 "ok" (Some (JDict [("Phone", JStr "555-123-4567")]))] in
   let r := get_phone_data_alternative_endpoints scripted no_str (JStr "P1") w in
   trace r = [mkRequest GET (Person (JStr "P1")) 0 []; mkRequest GET (Person (JStr "P1")) 1 []] /\
   value r = (["(555) 123-4567"], 0%Q) /\
   ~ Forall (fun req => purchase req = 0%Z) (trace r)) /\
  (let nothing := Answer 200 "ok" (Some (JDict [])) in
   let bought := Answer 200 "ok" (Some (JDict [("Phone", JStr "555-123-4567");
                                               ("totalCost", JNum 0.04)])) in
   let w := replicate 7 nothing ++ [bought] in
   let step := get_phone_data_alternative_endpoints scripted no_str (JStr "P1") (tail w) in
   let whole :=
     get_phone_numbers_for_owner scripted no_str no_float float_of_double (JStr "P1") w in
   purchase_requests (trace step)
   = [mkRequest GET (Person (JStr "P1")) 1 [];
      mkRequest GET (PersonContact (JStr "P1")) 1 [];
      mkRequest GET (PersonContacts (JStr "P1")) 1 []] /\
   purchase_requests (trace whole)
   = [mkRequest GET (Person (JStr "P1")) 1 [];
      mkRequest GET (PersonContact (JStr "P1")) 1 [];
      mkRequest GET (PersonContacts (JStr "P1")) 1 [];
      mkRequest POST (PersonPhone (JStr "P1")) 1 []] /\
   value whole = (["(555) 123-4567"], 0.04%Q) /\
   ~ (length (purchase_requests (trace whole)) <= 1)%nat).
Proof.
  split.
  - vm_compute. split; [done|]. split; [done|].
    intros H. inversion H as [|? ? _ H']; subst. inversion H' as [|? ? Hp _]; subst.
    discriminate Hp.
  - cbv zeta. split; [vm_compute; reflexivity|]. split; [vm_compute; reflexivity|].
    split; [vm_compute; reflexivity|].
    assert (length (purchase_requests (trace
              (get_phone_numbers_for_owner scripted no_str no_float float_of_double (JStr "P1")
                 (replicate 7 (Answer 200 "ok" (Some (JDict []))) ++
                  [Answer 200 "ok" (Some (JDict [("Phone", JStr "555-123-4567");
                                                 ("totalCost", JNum 0.04)]))]))))
            = 4%nat) as -> by (vm_compute; reflexivity).
    lia.
Qed.

(** C4, amended. Every request of the alternative-endpoints step is a GET
    on the person-details, /contact or /contacts endpoint with [Purchase]
    0 or 1: each endpoint is tried with [Purchase=0] and then with
    [Purchase=1], so the requests issued are a prefix of that fixed
    sequence of six and at most three of them are purchase-mode requests.
    The step stops at the first response in which the extractor finds
    contacts and returns them with recorded cost 0 (whatever the mode of
    the request that produced them); it returns no contacts exactly when
    it has issued all six requests and no response held contacts.  A whole
    lookup sends at most four purchase-mode requests for an owner: these
    three and the purchase itself. *)
Theorem C4_alternative_endpoints_step {World : Type}
    (send : World -> Request -> World * Response)
    (str_of_value : json -> string) (float_of_string : string -> option Q)
    (float_of_number : Q -> option Q) (person_key : json) (w : World) :
  let step (k : lookup) (r : run World contacts) :=
    trace r `prefix_of` alternative_requests person_key /\
    Forall (fun req => method req = GET /\ (purchase req = 0 \/ purchase req = 1)%Z /\
                       endpoint req ∈ alternative_endpoints person_key) (trace r) /\
    (length (purchase_requests (trace r)) <= 3)%nat /\
    (value r).2 = 0%Q /\
    ((value r).1 = [] <->
     trace r = alternative_requests person_key /\
     Forall (fun resp => found_in k resp = [])
            (replay send w (alternative_requests person_key))) /\
    ((value r).1 <> [] ->
     exists earlier resp,
       replay send w (trace r) = earlier ++ [resp] /\
       Forall (fun resp => found_in k resp = []) earlier /\
       found_in k resp <> [] /\
       (value r).1 = found_in k resp) in
  step (phone_lookup str_of_value)
       (get_phone_data_alternative_endpoints send str_of_value person_key w) /\
  step (email_lookup str_of_value)
       (get_email_data_alternative_endpoints send str_of_value person_key w) /\
  (length (purchase_requests
             (trace (get_phone_numbers_for_owner send str_of_value float_of_string
                       float_of_number person_key w))) <= 4)%nat /\
  (length (purchase_requests
             (trace (get_emails_for_owner send str_of_value float_of_string
                       float_of_number person_key w))) <= 4)%nat.
Proof.
  cbv zeta.
  assert (forall k,
    let r := get_data_alternative_endpoints send k person_key w in
    trace r `prefix_of` alternative_requests person_key /\
    Forall (fun req => method req = GET /\ (purchase req = 0 \/ purchase req = 1)%Z /\
                       endpoint req ∈ alternative_endpoints person_key) (trace r) /\
    (length (purchase_requests (trace r)) <= 3)%nat /\
    (value r).2 = 0%Q) as Hshape.
  { intros k r. destruct (alternative_step send k person_key w) as (Hpre & Hcost & _).
    fold r in Hpre, Hcost. split; [done|]. split; [|split; [|done]].
    - pose proof (alternative_requests_shape person_key) as Hall.
      destruct Hpre as [rest Hpre]. rewrite Hpre in Hall.
      by apply Forall_app in Hall as [Hall _].
    - rewrite <- (purchase_requests_alternative person_key).
      by apply purchase_requests_prefix. }
  split; [|split; [|split]].
  - destruct (Hshape (phone_lookup str_of_value)) as (H1 & H2 & H3 & H4).
    destruct (alternative_step_exact send (phone_lookup str_of_value) person_key w) as [H5 H6].
    split; [exact H1|]. split; [exact H2|]. split; [exact H3|]. split; [exact H4|].
    split; [exact H5|exact H6].
  - destruct (Hshape (email_lookup str_of_value)) as (H1 & H2 & H3 & H4).
    destruct (alternative_step_exact send (email_lookup str_of_value) person_key w) as [H5 H6].
    split; [exact H1|]. split; [exact H2|]. split; [exact H3|]. split; [exact H4|].
    split; [exact H5|exact H6].
  - apply lookup_purchase_requests.
  - apply lookup_purchase_requests.
Qed.

Lemma C4_witness :
  let w := [Answer 200 "ok" (Some (JDict []));
            Answer 200 "ok" (Some (JDict [("Phone", JStr "555-123-4567")]))] in
  let r := get_phone_data_alternative_endpoints scripted no_str (JStr "P1") w in
  exists earlier resp,
    replay scripted w (trace r) = earlier ++ [resp] /\
    Forall (fun resp => found_in (phone_lookup no_str) resp = []) earlier /\
    found_in (phone_lookup no_str) resp <> [] /\
    (value r).1 = found_in (phone_lookup no_str) resp.
Proof.
  intros w r.
  pose proof (C4_alternative_endpoints_step scripted no_str no_float float_of_double
                (JStr "P1") w) as H.
  cbv zeta in H. destruct H as [(_ & _ & _ & _ & _ & H) _].
  apply H. vm_compute. discriminate.
Defined.

(** X7. The requests of a phone or email lookup for an owner with a person
    key are: the no-charge request on the Phone (Email) endpoint, then a
    prefix of the six alternative requests, and the purchase request only
    as the last one, after all six alternatives; at most eight requests in
    all. *)
Theorem lookup_request_sequence {World : Type}
    (send : World -> Request -> World * Response)
    (str_of_value : json -> string) (float_of_string : string -> option Q)
    (float_of_number : Q -> option Q)
    (person_key : json) (w : World) :
  truthy person_key = true ->
  let phone := get_phone_numbers_for_owner send str_of_value float_of_string float_of_number person_key w in
  let email := get_emails_for_owner send str_of_value float_of_string float_of_number person_key w in
  lookup_shape (phone_lookup str_of_value) person_key phone /\
  lookup_shape (email_lookup str_of_value) person_key email /\
  (length (trace phone) <= 8)%nat /\ (length (trace email) <= 8)%nat.
Proof.
  intros Hkey; cbv zeta.
  pose proof (lookup_has_shape send float_of_string float_of_number (phone_lookup str_of_value)
                person_key w Hkey) as Hp.
  pose proof (lookup_has_shape send float_of_string float_of_number (email_lookup str_of_value)
                person_key w Hkey) as He.
  split; [exact Hp|]. split; [exact He|].
  split; eapply lookup_shape_length; eauto.
Qed.

Lemma lookup_request_sequence_witness :
  let w := [Answer 200 "ok" (Some (JDict []));
            Answer 500 "error" None;
            Answer 200 "ok" (Some (JDict [("Email", JStr "ann@example.org")]))] in
  (length (trace (get_emails_for_owner scripted no_str no_float float_of_double (JStr "P1") w)) <= 8)%nat /\
  trace (get_emails_for_owner scripted no_str no_float float_of_double (JStr "P1") w)
  = [mkRequest POST (PersonEmail (JStr "P1")) 0 [];
     mkRequest GET (Person (JStr "P1")) 0 []; mkRequest GET (Person (JStr "P1")) 1 []].
Proof.
  intros w.
  destruct (lookup_request_sequence scripted no_str no_float float_of_double (JStr "P1") w eq_refl)
    as (_ & _ & _ & Hlen).
  split; [exact Hlen|]. vm_compute. reflexivity.
Defined.






(** ** Owner resolution *)

Lemma py_or_truthy a b : truthy b = true -> truthy (py_or a b) = true.
Proof. unfold py_or. by destruct (truthy a) eqn:E. Qed.

Lemma owner_info_name v o : owner_info v = Some o -> truthy (name o) = true.
Proof.
  unfold owner_info. destruct (as_dict v) as [d|]; [|done]. cbn.
  intros [= <-]. cbn [name]. by do 2 apply py_or_truthy.
Qed.

Lemma owners_of_names resp : Forall (fun o => truthy (name o) = true) (owners_of resp).
Proof.
  unfold owners_of.
  destruct (ok_body resp) as [data|]; [|by constructor]. cbn.
  destruct (as_dict data) as [d|]; [|by constructor]. cbn.
  destruct (dict_get "results" d) as [results|]; [|by constructor].
  destruct (truthy results); [|by constructor].
  destruct results as [| | | |l|]; try by constructor.
  destruct (mapM owner_info l) as [os|] eqn:E; [|by constructor]. cbn.
  apply mapM_Some in E. induction E as [|v o l os Hv _ IH]; constructor; [|done].
  eauto using owner_info_name.
Qed.

Lemma owners_of_length resp d l :
  ok_body resp = Some (JDict d) ->
  dict_get "results" d = Some (JList l) ->
  Forall (fun v => is_Some (as_dict v)) l ->
  length (owners_of resp) = length l.
Proof.
  intros Hbody Hresults Hall. unfold owners_of. rewrite Hbody. cbn. rewrite Hresults.
  destruct l as [|v l]; [done|]. cbn [truthy].
  destruct (mapM owner_info (v :: l)) as [os|] eqn:E.
  - apply mapM_Some in E. apply Forall2_length in E. cbn in *. lia.
  - exfalso. apply mapM_None in E. apply Exists_exists in E as (x & Hx & Hnone).
    rewrite Forall_forall in Hall. destruct (Hall x Hx) as [d' Hd].
    unfold owner_info in Hnone. by rewrite Hd in Hnone.
Qed.

(** X10. Owner resolution is one GET on the persons endpoint of the property,
    always with [Purchase=1], whatever the search mode of the run; every
    owner it returns carries a non-empty (truthy) name, "Unknown Owner"
    when the response gives none; and when the response is an object
    whose "results" is a list of objects, there is one owner per entry. *)
Theorem get_owners_always_purchases {World : Type}
    (send : World -> Request -> World * Response) (radar_id : json) (w : World) :
  let r := get_owners_by_radar_id send radar_id w in
  trace r = [mkRequest GET (PropertyPersons radar_id) 1 []] /\
  Forall (fun o => truthy (name o) = true) (value r) /\
  (forall d l,
     ok_body (send w (mkRequest GET (PropertyPersons radar_id) 1 [])).2 = Some (JDict d) ->
     dict_get "results" d = Some (JList l) ->
     Forall (fun v => is_Some (as_dict v)) l ->
     length (value r) = length l).
Proof.
  cbv zeta. unfold get_owners_by_radar_id. rewrite io_bind_run, http_run.
  unfold mret, io_ret. cbn [value world trace].
  split; [done|]. split; [apply owners_of_names|]. apply owners_of_length.
Qed.

Lemma get_owners_always_purchases_witness :
  let entries := [JDict [("PersonKey", JStr "P1")]; JDict [("Name", JStr "Ann Lee")]] in
  let d := [("resultCount", JNum 2); ("results", JList entries)] in
  let w := [Answer 200 "ok" (Some (JDict d))] in
  map name (value (get_owners_by_radar_id scripted (JStr "R9") w))
  = [JStr "Unknown Owner"; JStr "Ann Lee"] /\
  length (value (get_owners_by_radar_id scripted (JStr "R9") w)) = length entries.
Proof.
  intros entries d w. split; [vm_compute; reflexivity|].
  apply (proj2 (proj2 (get_owners_always_purchases scripted (JStr "R9") w)) d entries).
  - vm_compute. reflexivity.
  - vm_compute. reflexivity.
  - repeat constructor; by eexists.
Defined.

(** ** The report loop of [main] *)

Section MainLoop.
Context {World : Type}.
Variable send : World -> Request -> World * Response.
Variable str_of_value : json -> string.
Variable float_of_string : string -> option Q.
Variable float_of_number : Q -> option Q.

(** One iteration of the loop, step by step. *)
Lemma main_step_run use_paid_search results item w :
  main_step send str_of_value float_of_string float_of_number use_paid_search results item w
  = match extract_address item with
    | None => mkRun (Some (results ++ [mkReport "No address" [] [] [] "No address"])) w []
    | Some address =>
        let s := search_property_with_propertyradar send address use_paid_search w in
        if negb (truthy (value s)) then
          mkRun (Some (results ++ [mkReport address [] [] [] "No property data"]))
                (world s) (trace s)
        else
          let e := extract_owner_info send (value s) (world s) in
          match value e with
          | None => mkRun None (world e) (trace s ++ trace e)
          | Some [] =>
              mkRun (Some (results ++ [mkReport address [] [] [] "No owners found"]))
                    (world e) (trace s ++ trace e)
          | Some owners =>
              let l := lookup_owners send str_of_value float_of_string float_of_number use_paid_search
                                     owners (world e) in
              mkRun (Some (results ++ [contact_record address (value l)]))
                    (world l) (trace s ++ trace e ++ trace l)
          end
    end.
Proof.
  unfold main_step.
  destruct (extract_address item) as [address|] eqn:Haddr; [|done].
  destruct address as [|c address]; [by apply extract_address_nonempty in Haddr|].
  cbv zeta. rewrite io_bind_run. cbv beta.
  set (s := search_property_with_propertyradar send (String c address) use_paid_search w).
  clearbody s. destruct s as [pr w1 t1]. cbn [value world trace].
  destruct (negb (truthy pr)).
  { unfold mret, io_ret. cbn [value world trace]. by rewrite app_nil_r. }
  rewrite io_bind_run. cbv beta.
  set (e := extract_owner_info send pr w1).
  clearbody e. destruct e as [os w2 t2]. cbn [value world trace].
  destruct os as [[|o os]|].
  - unfold mret, io_ret. cbn [value world trace]. by rewrite app_nil_r.
  - rewrite io_bind_run. cbv beta.
    set (l := lookup_owners send str_of_value float_of_string float_of_number use_paid_search (o :: os) w2).
    clearbody l. destruct l as [[[details ps] es] w3 t3].
    unfold mret, io_ret, contact_record. cbn [value world trace fst snd]. by rewrite app_nil_r.
  - unfold mret, io_ret. cbn [value world trace]. by rewrite app_nil_r.
Qed.
End MainLoop.

Lemma list_set_nil xs : list_set xs = [] <-> xs = [].
Proof.
  unfold list_set. split; [|by intros ->].
  intros H. destruct xs as [|x xs]; [done|].
  assert (x ∈ elements (list_to_set (x :: xs) : gset string)) as Hx
    by (apply elem_of_elements, elem_of_list_to_set, list_elem_of_here).
  rewrite H in Hx. by apply elem_of_nil in Hx.
Qed.

Lemma nonempty_spec {A} (xs : list A) : nonempty xs = true <-> xs <> [].
Proof. by destruct xs. Qed.

Section MainLoopFacts.
Context {World : Type}.
Variable send : World -> Request -> World * Response.
Variable str_of_value : json -> string.
Variable float_of_string : string -> option Q.
Variable float_of_number : Q -> option Q.

Lemma contact_record_status address looked_up :
  let record := contact_record address looked_up in
  (status record = "Success" \/ status record = "No contact info found") /\
  (status record = "Success" <-> phones record <> [] \/ emails record <> []).
Proof.
  unfold contact_record. cbn [status phones emails].
  rewrite !list_set_nil, <- !nonempty_spec.
  destruct (nonempty looked_up.1.2), (nonempty looked_up.2); cbn; intuition congruence.
Qed.

(** What one iteration of the loop leaves in [results]. *)
Lemma main_step_record use_paid_search results item w rs :
  value (main_step send str_of_value float_of_string float_of_number use_paid_search results item w) = Some rs ->
  exists record,
    rs = results ++ [record] /\
    status record ∈ ["No address"; "No property data"; "No owners found";
                     "Success"; "No contact info found"] /\
    (status record = "Success" <-> phones record <> [] \/ emails record <> []) /\
    (status record ∈ ["No address"; "No property data"; "No owners found"] ->
     owners record = []) /\
    address record = default "No address" (extract_address item).
Proof.
  rewrite main_step_run.
  assert (forall a st, st ∈ ["No address"; "No property data"; "No owners found"] ->
    exists record,
      results ++ [mkReport a [] [] [] st] = results ++ [record] /\
      status record ∈ ["No address"; "No property data"; "No owners found";
                       "Success"; "No contact info found"] /\
      (status record = "Success" <-> phones record <> [] \/ emails record <> []) /\
      (status record ∈ ["No address"; "No property data"; "No owners found"] ->
       owners record = []) /\
      address record = a) as Hplain.
  { intros a st Hst. eexists. split; [done|]. cbn [status phones emails owners address].
    split; [rewrite !elem_of_cons in *; tauto|]. split; [|done].
    rewrite !elem_of_cons, elem_of_nil in Hst. split; [|tauto].
    intros ->. destruct Hst as [|[|[|]]]; done. }
  destruct (extract_address item) as [address|]; cbn [default].
  2: { intros [= <-]. apply Hplain. rewrite !elem_of_cons. tauto. }
  cbv zeta. destruct (negb _).
  { intros [= <-]. apply Hplain. rewrite !elem_of_cons. tauto. }
  destruct (value (extract_owner_info _ _ _)) as [[|o os]|]; [| |done].
  { intros [= <-]. apply Hplain. rewrite !elem_of_cons. tauto. }
  intros [= <-].
  match goal with
  | |- context [contact_record ?a ?l] =>
      destruct (contact_record_status a l) as [Hs Hiff];
      exists (contact_record a l)
  end.
  split; [done|]. split; [rewrite !elem_of_cons; tauto|]. split; [exact Hiff|].
  split; [|done].
  rewrite !elem_of_cons, elem_of_nil. intros Hst.
  destruct Hs as [Hs|Hs]; rewrite Hs in Hst; destruct Hst as [|[|[|]]]; done.
Qed.
End MainLoopFacts.

Section OwnerLoop.
Context {World : Type}.
Variable send : World -> Request -> World * Response.

Lemma get_owners_run radar_id w :
  get_owners_by_radar_id send radar_id w
  = mkRun (owners_of (send w (mkRequest GET (PropertyPersons radar_id) 1 [])).2)
          (send w (mkRequest GET (PropertyPersons radar_id) 1 [])).1
          [mkRequest GET (PropertyPersons radar_id) 1 []].
Proof. unfold get_owners_by_radar_id. by rewrite io_bind_run, http_run. Qed.

(** The loop over the property results raises exactly when some result is
    not an object; its requests are owner-resolution requests. *)
Lemma owners_of_results_spec results w :
  let r := owners_of_results send results w in
  (value r = None <-> Exists (fun result => as_dict result = None) results) /\
  Forall (fun req => method req = GET /\ purchase req = 1%Z /\
                     exists radar_id, endpoint req = PropertyPersons radar_id) (trace r).
Proof.
  revert w. induction results as [|result results IH]; intros w.
  { cbn. split; [|done]. split; [done|]. by intros ?%Exists_nil. }
  cbn [owners_of_results]. rewrite Exists_cons.
  destruct (as_dict result) as [d|] eqn:Hd.
  2: { cbn. split; [|done]. split; [by left|done]. }
  destruct (negb (truthy (dict_get_default "RadarID" JNull d))).
  { destruct (IH w) as [Hv Ht]. cbv zeta in *. split; [|done]. rewrite Hv. intuition congruence. }
  rewrite io_bind_run, get_owners_run. cbn [value world trace]. rewrite io_bind_run.
  unfold mret, io_ret. cbn [value world trace].
  destruct (IH (send w (mkRequest GET (PropertyPersons (dict_get_default "RadarID" JNull d))
                                  1 [])).1) as [Hv Ht].
  cbv zeta in *. split.
  - rewrite <- Hv. destruct (value (owners_of_results send results _)); cbn; intuition congruence.
  - rewrite app_nil_r. constructor; [|done]. cbn. eauto.
Qed.

Lemma extract_owner_info_spec property_results w :
  truthy property_results = true ->
  let r := extract_owner_info send property_results w in
  (value r = None <->
   match property_results with
   | JList l => Exists (fun result => as_dict result = None) l
   | _ => True
   end) /\
  Forall (fun req => method req = GET /\ purchase req = 1%Z /\
                     exists radar_id, endpoint req = PropertyPersons radar_id) (trace r).
Proof.
  intros Htruthy. destruct property_results as [|b|q|s|l|d]; try done;
    try (cbn; split; [done|constructor]).
  - destruct s; [done|]. cbn. split; [done|constructor].
  - apply owners_of_results_spec.
  - destruct d; [done|]. cbn. split; [done|constructor].
Qed.

Lemma search_property_requests address (use_paid_search : bool) w :
  Forall (fun req => method req = POST /\ endpoint req = Properties /\
                     purchase req = (if use_paid_search then 1 else 0)%Z)
         (trace (search_property_with_propertyradar send address use_paid_search w)).
Proof.
  unfold search_property_with_propertyradar.
  destruct (parse_address address); [|constructor].
  rewrite io_bind_run, http_run. cbn. by repeat constructor.
Qed.

End OwnerLoop.

Section MainLoopMore.
Context {World : Type}.
Variable send : World -> Request -> World * Response.
Variable str_of_value : json -> string.
Variable float_of_string : string -> option Q.
Variable float_of_number : Q -> option Q.

(** In test mode no owner is looked up. *)
Lemma lookup_owners_test_mode owners w :
  lookup_owners send str_of_value float_of_string float_of_number false owners w
  = mkRun (map (fun o => mkOwnerDetail (name o) (person_key o) [] [] 0%Q 0%Q) owners, [], [])
          w [].
Proof.
  revert w. induction owners as [|o owners IH]; intros w; [done|].
  cbn [lookup_owners]. rewrite andb_false_r. rewrite !io_bind_run.
  unfold mret, io_ret. cbn [value world trace]. rewrite IH. done.
Qed.
End MainLoopMore.

(** X11. Every iteration of the loop of [main] that does not raise appends
    exactly one record; its status is one of five strings, it is "Success"
    exactly when the record has a phone or an email, the three early
    statuses come with no owners, and the address is the one extracted
    from the item ("No address" when there is none). *)
Theorem main_step_appends_one_record {World : Type}
    (send : World -> Request -> World * Response)
    (str_of_value : json -> string) (float_of_string : string -> option Q)
    (float_of_number : Q -> option Q)
    (use_paid_search : bool) (results : list ReportRecord) (item : Item) (w : World)
    (results' : list ReportRecord) :
  value (main_step send str_of_value float_of_string float_of_number use_paid_search results item w)
  = Some results' ->
  exists record,
    results' = results ++ [record] /\
    status record ∈ ["No address"; "No property data"; "No owners found";
                     "Success"; "No contact info found"] /\
    (status record = "Success" <-> phones record <> [] \/ emails record <> []) /\
    (status record ∈ ["No address"; "No property data"; "No owners found"] ->
     owners record = []) /\
    address record = default "No address" (extract_address item).
Proof. apply main_step_record. Qed.

Lemma main_step_appends_one_record_witness :
  exists record,
    [mkReport "12 Oak Ave, Reno, NV 89501"
       [mkOwnerDetail (JStr "Ann Lee") (JStr "P1") ["(555) 123-4567"] [] 0 0]
       ["(555) 123-4567"] [] "Success"]
    = [] ++ [record] /\
    status record ∈ ["No address"; "No property data"; "No owners found";
                     "Success"; "No contact info found"] /\
    (status record = "Success" <-> phones record <> [] \/ emails record <> []) /\
    (status record ∈ ["No address"; "No property data"; "No owners found"] ->
     owners record = []) /\
    address record
    = default "No address" (extract_address (mkItem "1" "12 Oak Ave, Reno, NV 89501" [])).
Proof.
  apply (main_step_appends_one_record scripted no_str no_float float_of_double true []
           (mkItem "1" "12 Oak Ave, Reno, NV 89501" [])
           [Answer 200 "ok" (Some (JDict [("results", JList [JDict [("RadarID", JStr "R9")]])]));
            Answer 200 "ok" (Some (JDict [("results",
               JList [JDict [("PersonKey", JStr "P1"); ("Name", JStr "Ann Lee")]])]));
            Answer 200 "ok" (Some (JDict [("Phone", JStr "555-123-4567")]))]).
  vm_compute. reflexivity.
Defined.



(** X13. An iteration of the loop of [main] raises (and the run stops without
    a report) exactly when the property search returned a truthy result
    that is not a list of objects: [extract_owner_info] runs outside any
    [try], and in every other case the iteration ends with a record. *)
Theorem main_step_raises_iff {World : Type}
    (send : World -> Request -> World * Response)
    (str_of_value : json -> string) (float_of_string : string -> option Q)
    (float_of_number : Q -> option Q)
    (use_paid_search : bool) (results : list ReportRecord) (item : Item) (w : World) :
  value (main_step send str_of_value float_of_string float_of_number use_paid_search results item w) = None <->
  exists address,
    extract_address item = Some address /\
    let property_results :=
      value (search_property_with_propertyradar send address use_paid_search w) in
    truthy property_results = true /\
    match property_results with
    | JList l => Exists (fun result => as_dict result = None) l
    | _ => True
    end.
Proof.
  rewrite main_step_run.
  destruct (extract_address item) as [address|].
  2: { split; [done|]. by intros (a & ? & _). }
  cbv zeta.
  set (s := search_property_with_propertyradar send address use_paid_search w).
  destruct (truthy (value s)) eqn:Htruthy; cbn [negb].
  2: { split; [done|]. intros (a & [= <-] & Ht & _). fold s in Ht. congruence. }
  destruct (extract_owner_info_spec send (value s) (world s) Htruthy) as [Hnone _].
  cbv zeta in Hnone.
  split.
  - intros H. exists address. split; [done|]. fold s. split; [done|]. apply Hnone.
    destruct (value (extract_owner_info send (value s) (world s))) as [[|o os]|]; done.
  - intros (a & [= <-] & _ & Hbad). fold s in Hbad. apply Hnone in Hbad.
    by rewrite Hbad.
Qed.

Example main_raises_on_malformed_results :
  value (main_step scripted no_str no_float float_of_double true []
           (mkItem "1" "12 Oak Ave, Reno, NV 89501" [])
           [Answer 200 "ok" (Some (JDict [("results", JList [JStr "R9"])]))])
  = None.
Proof. vm_compute. reflexivity. Qed.

Lemma main_step_raises_iff_witness :
  value (main_step scripted no_str no_float float_of_double true []
           (mkItem "1" "12 Oak Ave, Reno, NV 89501" [])
           [Answer 200 "ok" (Some (JDict [("results", JDict [("RadarID", JStr "R9")])]))])
  = None.
Proof.
  apply main_step_raises_iff. exists "12 Oak Ave, Reno, NV 89501".
  split; [vm_compute; reflexivity|]. vm_compute. split; [reflexivity|exact I].
Defined.

(** X14. In test mode ([use_paid_search] false) an iteration of the loop of
    [main] issues no contact-lookup request: its requests are the property
    search with [Purchase=0] and owner-resolution GETs, which carry
    [Purchase=1] all the same; the record it appends has no phones, no
    emails, owners without contacts or costs, and never the status
    "Success". *)
Theorem main_step_test_mode {World : Type}
    (send : World -> Request -> World * Response)
    (str_of_value : json -> string) (float_of_string : string -> option Q)
    (float_of_number : Q -> option Q)
    (results : list ReportRecord) (item : Item) (w : World) :
  let r := main_step send str_of_value float_of_string float_of_number false results item w in
  Forall (fun req =>
            method req = POST /\ endpoint req = Properties /\ purchase req = 0%Z \/
            method req = GET /\ purchase req = 1%Z /\
            exists radar_id, endpoint req = PropertyPersons radar_id) (trace r) /\
  forall results',
    value r = Some results' ->
    exists record,
      results' = results ++ [record] /\
      phones record = [] /\ emails record = [] /\ status record <> "Success" /\
      Forall (fun detail => detail_phones detail = [] /\ detail_emails detail = [] /\
                            phone_cost detail = 0%Q /\ email_cost detail = 0%Q)
             (owners record).
Proof.
  cbv zeta. rewrite main_step_run.
  destruct (extract_address item) as [address|].
  2: { split; [constructor|]. intros ? [= <-]. eexists. by repeat split. }
  cbv zeta.
  pose proof (search_property_requests send address false w) as Hsearch.
  set (s := search_property_with_propertyradar send address false w) in *.
  assert (Forall (fun req =>
            method req = POST /\ endpoint req = Properties /\ purchase req = 0%Z \/
            method req = GET /\ purchase req = 1%Z /\
            exists radar_id, endpoint req = PropertyPersons radar_id) (trace s)) as Hs.
  { eapply Forall_impl; [exact Hsearch|]. cbn. tauto. }
  destruct (truthy (value s)) eqn:Htruthy; cbn [negb].
  2: { split; [done|]. intros ? [= <-]. eexists. by repeat split. }
  destruct (extract_owner_info_spec send (value s) (world s) Htruthy) as [_ Hreqs].
  cbv zeta in Hreqs.
  assert (Forall (fun req =>
            method req = POST /\ endpoint req = Properties /\ purchase req = 0%Z \/
            method req = GET /\ purchase req = 1%Z /\
            exists radar_id, endpoint req = PropertyPersons radar_id)
            (trace s ++ trace (extract_owner_info send (value s) (world s)))) as Hall.
  { apply Forall_app. split; [done|]. eapply Forall_impl; [exact Hreqs|]. cbn. tauto. }
  destruct (value (extract_owner_info send (value s) (world s))) as [[|o os]|].
  - split; [done|]. intros ? [= <-]. eexists. by repeat split.
  - rewrite lookup_owners_test_mode. cbn [value world trace]. rewrite !app_nil_r.
    split; [done|]. intros ? [= <-]. eexists. split; [done|].
    unfold contact_record. cbn. repeat split; try done.
    constructor; [done|]. apply Forall_map. by apply Forall_true.
  - split; [done|]. done.
Qed.

Example test_mode_still_purchases_owners :
  trace (main_step scripted no_str no_float float_of_double false []
           (mkItem "1" "12 Oak Ave, Reno, NV 89501" [])
           [Answer 200 "ok" (Some (JDict [("results", JList [JDict [("RadarID", JStr "R9")]])]));
            Answer 200 "ok" (Some (JDict [("results", JList [JDict [("PersonKey", JStr "P1")]])]))])
  = [mkRequest POST Properties 0
       [("Address", ["12 Oak Ave"]); ("City", ["Reno"]); ("State", ["NV"]);
        ("ZipFive", ["89501"])];
     mkRequest GET (PropertyPersons (JStr "R9")) 1 []].
Proof. vm_compute. reflexivity. Qed.

Lemma main_step_test_mode_witness :
  exists record,
    [mkReport "12 Oak Ave, Reno, NV 89501"
       [mkOwnerDetail (JStr "Unknown Owner") (JStr "P1") [] [] 0 0] [] []
       "No contact info found"] = [] ++ [record] /\
    phones record = [] /\ emails record = [] /\ status record <> "Success" /\
    Forall (fun detail => detail_phones detail = [] /\ detail_emails detail = [] /\
                          phone_cost detail = 0%Q /\ email_cost detail = 0%Q)
           (owners record).
Proof.
  apply (proj2 (main_step_test_mode scripted no_str no_float float_of_double []
           (mkItem "1" "12 Oak Ave, Reno, NV 89501" [])
           [Answer 200 "ok" (Some (JDict [("results", JList [JDict [("RadarID", JStr "R9")]])]));
            Answer 200 "ok" (Some (JDict [("results", JList [JDict [("PersonKey", JStr "P1")]])]))])).
  vm_compute. reflexivity.
Defined.

(** ** The older script: phone lookups are always purchases *)

Section FinderFacts.
Context {World : Type}.
Variable send : World -> Request -> World * Response.
Variable str_of_value : json -> string.

Lemma first_truthy_field_truthy fields d v :
  Finder.first_truthy_field fields d = Some v -> truthy v = true.
Proof.
  induction fields as [|field fields IH]; [done|]. cbn [Finder.first_truthy_field].
  unfold Finder.truthy_field.
  destruct (dict_get field d) as [x|]; [|done].
  destruct (truthy x) eqn:E; [|done]. by intros [= <-].
Qed.

Lemma finder_lookup_owners_requests owners w :
  Forall (fun req => method req = POST /\ purchase req = 1%Z /\
                     exists person_key,
                       endpoint req = PersonPhoneLower person_key /\
                       truthy person_key = true)
         (trace (Finder.lookup_owners send str_of_value owners w)).
Proof.
  revert w. induction owners as [|owner owners IH]; intros w; [constructor|].
  cbn [Finder.lookup_owners]. rewrite !io_bind_run. unfold mret, io_ret.
  cbn [value world trace]. rewrite app_nil_r. apply Forall_app. split; [|apply IH].
  unfold Finder.get_owner_phones.
  destruct (Finder.first_truthy_field Finder.person_key_fields owner) as [pk|] eqn:E;
    [|constructor].
  rewrite io_bind_run, http_run. cbn. repeat constructor.
  eauto using first_truthy_field_truthy.
Qed.
End FinderFacts.

(** X18. In [final_property_radar_phone_finder.py] an iteration of the report
    loop issues the property search in the mode of the run and, after it,
    only phone requests [POST .../phone?Purchase=1]: there is no no-charge
    attempt, and the phone lookups are purchases in test mode too. *)
Theorem finder_phone_lookups_always_purchase {World : Type}
    (send : World -> Request -> World * Response) (str_of_value : json -> string)
    (use_paid_search : bool) (results : list Finder.PhoneRecord) (item : Item) (w : World) :
  let r := Finder.process_step send str_of_value use_paid_search results item w in
  match extract_address item with
  | None => trace r = []
  | Some address =>
      exists lookups,
        trace r = mkRequest POST Properties (if use_paid_search then 1 else 0)
                            [("Address", [address])] :: lookups /\
        Forall (fun req => method req = POST /\ purchase req = 1%Z /\
                           exists person_key,
                             endpoint req = PersonPhoneLower person_key /\
                             truthy person_key = true) lookups
  end.
Proof.
  cbv zeta. unfold Finder.process_step.
  destruct (extract_address item) as [address|] eqn:Haddr; [|done].
  destruct address as [|c address]; [by apply extract_address_nonempty in Haddr|].
  rewrite io_bind_run. cbv beta.
  assert (trace (Finder.search_properties_by_address send (String c address) use_paid_search w)
          = [mkRequest POST Properties (if use_paid_search then 1 else 0)
                       [("Address", [String c address])]]) as Htrace.
  { unfold Finder.search_properties_by_address. by rewrite io_bind_run, http_run. }
  set (s := Finder.search_properties_by_address send (String c address) use_paid_search w) in *.
  clearbody s. destruct s as [[[|kv d]|] w1 t1]; cbn [value world trace] in *; subst t1;
    try (exists []; split; [done|constructor]).
  destruct (Finder.extract_owner_info str_of_value (kv :: d)) as [|o os];
    [exists []; split; [done|constructor]|].
  rewrite io_bind_run. unfold mret, io_ret. cbn [value world trace]. rewrite app_nil_r.
  eexists. split; [done|]. apply finder_lookup_owners_requests.
Qed.

Example finder_test_mode_purchases_phone :
  trace (Finder.process_step scripted no_str false []
           (mkItem "1" "12 Oak Ave, Reno, NV 89501" [])
           [Answer 200 "ok" (Some (JDict [("results",
               JList [JDict [("Owner", JStr "Ann Lee"); ("PersonKey", JStr "P1")]])]))])
  = [mkRequest POST Properties 0 [("Address", ["12 Oak Ave, Reno, NV 89501"])];
     mkRequest POST (PersonPhoneLower (JStr "P1")) 1 []].
Proof. vm_compute. reflexivity. Qed.

(** ** Address source: where the address comes from *)

Lemma column_address_from columns text :
  column_address columns = Some text ->
  has_address_indicator text = true /\
  exists column, In column columns /\ column_text column = Some text.
Proof.
  induction columns as [|column columns IH]; [done|]. cbn [column_address].
  destruct (column_text column) as [t|] eqn:Ht.
  - destruct (negb (Py.is_empty t) && has_address_indicator t) eqn:E.
    + intros [= <-]. apply andb_true_iff in E as [_ E]. split; [done|].
      exists column. split; [by left|done].
    + intros (Hi & col & Hin & Hcol)%IH. split; [done|]. exists col. split; [by right|done].
  - intros (Hi & col & Hin & Hcol)%IH. split; [done|]. exists col. split; [by right|done].
Qed.

(** X3. [extract_address] never makes up a string and never returns an empty
    one: an address it returns is the item name or the display text of one
    of the item's columns; a column text is returned only when it contains
    a street-type keyword and the name contains none; and an item named
    exactly "New address" is always skipped, whatever its columns hold. *)
Theorem extract_address_source (item : Item) (a : string) :
  extract_address item = Some a ->
  a <> EmptyString /\
  item_name item <> "New address" /\
  (a = item_name item \/
   has_address_indicator (item_name item) = false /\
   has_address_indicator a = true /\
   exists column, In column (column_values item) /\ column_text column = Some a).
Proof.
  intros H. split; [by eapply extract_address_nonempty|].
  unfold extract_address in H.
  destruct (String.eqb (item_name item) "New address") eqn:Hnew; [done|].
  apply String.eqb_neq in Hnew. split; [done|].
  destruct (has_address_indicator (item_name item)) eqn:Hname.
  { injection H as <-. by left. }
  destruct (column_address (column_values item)) as [text|] eqn:Hcol.
  - injection H as <-. right. split; [done|]. by apply column_address_from.
  - destruct (Py.is_empty (item_name item)); [done|]. injection H as <-. by left.
Qed.

Lemma extract_address_source_witness :
  "9 Elm Blvd" <> EmptyString /\
  "Lead 7" <> "New address" /\
  ("9 Elm Blvd" = "Lead 7" \/
   has_address_indicator "Lead 7" = false /\
   has_address_indicator "9 Elm Blvd" = true /\
   exists column,
     In column [mkColumn "c1" None; mkColumn "c2" (Some "9 Elm Blvd")] /\
     column_text column = Some "9 Elm Blvd").
Proof.
  apply (extract_address_source
           (mkItem "2" "Lead 7" [mkColumn "c1" None; mkColumn "c2" (Some "9 Elm Blvd")])).
  vm_compute. reflexivity.
Defined.

(** ** Aggregation in the report, and addresses that never reach the boundary *)

Lemma elem_of_concat_map {A} (f : A -> list string) (l : list A) (x : string) :
  x ∈ concat (map f l) <-> exists a, a ∈ l /\ x ∈ f a.
Proof.
  induction l as [|a l IH]; cbn [map concat].
  - split; [by intros ?%elem_of_nil|by intros (? & ?%elem_of_nil & _)].
  - rewrite elem_of_app, IH. split.
    + intros [H|(b & Hb & H)]; [exists a|exists b]; split; try done;
        [apply list_elem_of_here|by apply list_elem_of_further].
    + intros (b & [->|Hb]%elem_of_cons & H); [by left|right; eauto].
Qed.

Section Aggregation.
Context {World : Type}.
Variable send : World -> Request -> World * Response.
Variable str_of_value : json -> string.
Variable float_of_string : string -> option Q.
Variable float_of_number : Q -> option Q.

(** [all_phones] and [all_emails] are the concatenation of what the
    owners got, one detail per owner, in order. *)
Lemma lookup_owners_aggregate use_paid_search owners w :
  let l := value (lookup_owners send str_of_value float_of_string float_of_number use_paid_search owners w) in
  l.1.2 = concat (map detail_phones l.1.1) /\
  l.2 = concat (map detail_emails l.1.1) /\
  map detail_name l.1.1 = map name owners /\
  map detail_person_key l.1.1 = map person_key owners.
Proof.
  revert w. induction owners as [|o owners IH]; intros w; [done|].
  cbn [lookup_owners]. rewrite io_bind_run. cbv beta.
  match goal with
  | |- context [value ((if ?c then ?a else ?b) w)] => set (this := (if c then a else b) w)
  end.
  assert (detail_name (value this) = name o /\ detail_person_key (value this) = person_key o)
    as [Hn Hk].
  { subst this. destruct (truthy (person_key o) && use_paid_search); [|done].
    rewrite !io_bind_run. done. }
  clearbody this. destruct this as [d w1 t1]. cbn [value world trace] in *.
  rewrite io_bind_run. unfold mret, io_ret. cbn [value world trace fst snd].
  destruct (IH w1) as (H1 & H2 & H3 & H4). cbv zeta in *.
  cbn [map concat]. rewrite <- H1, <- H2, H3, H4, Hn, Hk. done.
Qed.

Lemma main_step_unparseable use_paid_search results item address w :
  extract_address item = Some address ->
  parse_address address = None ->
  main_step send str_of_value float_of_string float_of_number use_paid_search results item w
  = mkRun (Some (results ++ [mkReport address [] [] [] "No property data"])) w [].
Proof.
  intros Haddr Hparse. rewrite main_step_run, Haddr. cbv zeta.
  unfold search_property_with_propertyradar. rewrite Hparse. done.
Qed.

Lemma main_step_aggregates use_paid_search results item w rs :
  value (main_step send str_of_value float_of_string float_of_number use_paid_search results item w) = Some rs ->
  exists record,
    rs = results ++ [record] /\
    NoDup (phones record) /\ NoDup (emails record) /\
    (forall x, x ∈ phones record <->
               exists detail, detail ∈ owners record /\ x ∈ detail_phones detail) /\
    (forall x, x ∈ emails record <->
               exists detail, detail ∈ owners record /\ x ∈ detail_emails detail).
Proof.
  assert (forall a st,
    exists record,
      results ++ [mkReport a [] [] [] st] = results ++ [record] /\
      NoDup (phones record) /\ NoDup (emails record) /\
      (forall x, x ∈ phones record <->
                 exists detail, detail ∈ owners record /\ x ∈ detail_phones detail) /\
      (forall x, x ∈ emails record <->
                 exists detail, detail ∈ owners record /\ x ∈ detail_emails detail)) as Hplain.
  { intros a st. eexists. split; [done|]. cbn.
    split; [constructor|]. split; [constructor|].
    split; intros x; (split; [by intros ?%elem_of_nil|by intros (? & ?%elem_of_nil & _)]). }
  rewrite main_step_run.
  destruct (extract_address item) as [address|]; [|intros [= <-]; apply Hplain].
  cbv zeta. destruct (negb _); [intros [= <-]; apply Hplain|].
  destruct (value (extract_owner_info _ _ _)) as [[|o os]|]; [intros [= <-]; apply Hplain| |done].
  match goal with
  | |- context [lookup_owners ?a ?b ?c ?n ?m (o :: os) ?w'] =>
      pose proof (lookup_owners_aggregate m (o :: os) w') as Hagg;
      cbv zeta in Hagg; destruct Hagg as (Hp & He & _);
      set (l := lookup_owners a b c n m (o :: os) w') in *; clearbody l
  end.
  intros [= <-]. exists (contact_record address (value l)).
  split; [done|]. unfold contact_record, list_set. cbn [phones emails owners].
  split; [apply NoDup_elements|]. split; [apply NoDup_elements|].
  split; intros x; rewrite elem_of_elements, elem_of_list_to_set.
  - rewrite Hp. apply elem_of_concat_map.
  - rewrite He. apply elem_of_concat_map.
Qed.
End Aggregation.

(** X15. An address that [parse_address] rejects (for instance one without a
    comma) never reaches the boundary: the iteration issues no request at
    all and records "No property data" for it. *)
Theorem unparseable_address_is_not_searched {World : Type}
    (send : World -> Request -> World * Response)
    (str_of_value : json -> string) (float_of_string : string -> option Q)
    (float_of_number : Q -> option Q)
    (use_paid_search : bool) (results : list ReportRecord) (item : Item)
    (address : string) (w : World) :
  extract_address item = Some address ->
  (length (Py.split "," address) < 2)%nat \/ parse_address address = None ->
  let r := main_step send str_of_value float_of_string float_of_number use_paid_search results item w in
  trace r = [] /\ world r = w /\
  value r = Some (results ++ [mkReport address [] [] [] "No property data"]).
Proof.
  intros Haddr Hbad. cbv zeta.
  assert (parse_address address = None) as Hparse
    by (destruct Hbad; eauto using parse_address_few_segments).
  by rewrite (main_step_unparseable send str_of_value float_of_string float_of_number use_paid_search
                results item address w Haddr Hparse).
Qed.

Lemma unparseable_address_is_not_searched_witness :
  trace (main_step scripted no_str no_float float_of_double true [] (mkItem "4" "77 Sunset Blvd Reno NV" [])
           [Answer 200 "ok" (Some (JDict [("results", JList [JDict [("RadarID", JStr "R9")]])]))])
  = [].
Proof.
  apply (unparseable_address_is_not_searched scripted no_str no_float float_of_double true []
           (mkItem "4" "77 Sunset Blvd Reno NV" []) "77 Sunset Blvd Reno NV").
  - vm_compute. reflexivity.
  - left. vm_compute. lia.
Defined.

(** X16. The aggregated phones and emails of a record are exactly the phones
    and emails of its owners, each listed once; and the record lists one
    detail per owner found. *)
Theorem report_aggregates_owner_contacts {World : Type}
    (send : World -> Request -> World * Response)
    (str_of_value : json -> string) (float_of_string : string -> option Q)
    (float_of_number : Q -> option Q)
    (use_paid_search : bool) (results : list ReportRecord) (item : Item) (w : World)
    (results' : list ReportRecord) :
  value (main_step send str_of_value float_of_string float_of_number use_paid_search results item w)
  = Some results' ->
  exists record,
    results' = results ++ [record] /\
    NoDup (phones record) /\ NoDup (emails record) /\
    (forall x, x ∈ phones record <->
               exists detail, detail ∈ owners record /\ x ∈ detail_phones detail) /\
    (forall x, x ∈ emails record <->
               exists detail, detail ∈ owners record /\ x ∈ detail_emails detail).
Proof. apply main_step_aggregates. Qed.

(** ** The purchase-path extractors *)

Lemma find_recursive_sound (str_of_value : json -> string) (word : string) (obj : json) :
  forall x,
    x ∈ find_recursive str_of_value word obj ->
    exists key value,
      has_entry obj key value /\
      Py.contains word (Py.lower key) = true /\
      truthy value = true /\
      x = py_str str_of_value value.
Proof.
  induction obj as [| | | |l IH|d IH] using json_induction; intros x;
    try (cbn; by intros ?%elem_of_nil).
  - cbn [find_recursive].
    induction IH as [|item l Hitem _ IHl]; [by intros ?%elem_of_nil|].
    rewrite elem_of_app. intros [Hx|Hx].
    + destruct (Hitem _ Hx) as (key & value & He & ?).
      exists key, value. split; [|done]. eapply entry_inside; [|done]. by left.
    + destruct (IHl Hx) as (key & value & He & ?).
      exists key, value. split; [|done]. inversion He; subst.
      eapply entry_inside; [|done]. by right.
  - cbn [find_recursive].
    induction IH as [|[k v] d Hv _ IHd]; [by intros ?%elem_of_nil|].
    rewrite elem_of_app. intros [Hx|Hx].
    + cbn [snd] in Hv.
      destruct (Py.contains word (Py.lower k) && truthy v) eqn:E.
      * apply andb_true_iff in E as [E1 E2]. apply list_elem_of_singleton in Hx as ->.
        exists k, v. split; [|done]. apply entry_here. by left.
      * assert (exists key value, has_entry v key value /\
                  Py.contains word (Py.lower key) = true /\ truthy value = true /\
                  x = py_str str_of_value value) as (key & value & He & ?).
        { destruct v; try (by apply elem_of_nil in Hx); by apply Hv. }
        exists key, value. split; [|done]. eapply entry_under; [|done]. by left.
    + destruct (IHd Hx) as (key & value & He & ?).
      exists key, value. split; [|done]. inversion He; subst.
      * apply entry_here. by right.
      * eapply entry_under; [|done]. by right.
Qed.

(** X6. Every contact that comes out of a purchase response was cleaned from
    the text of a truthy value found under a key containing "phone" (for
    phones) or "email" (for emails): the purchase path knows no other
    indicator. *)
Theorem purchased_contacts_are_key_driven
    (str_of_value : json -> string) (data : json) (x : string) :
  (x ∈ extract_phones_from_data str_of_value data ->
   exists key value,
     has_entry data key value /\ Py.contains "phone" (Py.lower key) = true /\
     truthy value = true /\ clean_phone (py_str str_of_value value) = Some x) /\
  (x ∈ extract_emails_from_data str_of_value data ->
   exists key value,
     has_entry data key value /\ Py.contains "email" (Py.lower key) = true /\
     truthy value = true /\ clean_email_purchased (py_str str_of_value value) = Some x).
Proof.
  split.
  - unfold extract_phones_from_data.
    intros (raw & Hraw & Hx)%elem_of_elements%(elem_of_clean_set clean_phone).
    apply find_recursive_sound in Hraw as (key & value & He & Hk & Ht & ->). eauto 10.
  - unfold extract_emails_from_data.
    intros (raw & Hraw & Hx)%elem_of_elements%(elem_of_clean_set clean_email_purchased).
    apply find_recursive_sound in Hraw as (key & value & He & Hk & Ht & ->). eauto 10.
Qed.

Lemma purchased_contacts_are_key_driven_witness :
  exists key value,
    has_entry (JDict [("results", JList [JDict [("Tel", JStr "555-000-1111");
                                               ("HomePhone", JStr "1 (555) 123-4567")]])])
              key value /\
    Py.contains "phone" (Py.lower key) = true /\ truthy value = true /\
    clean_phone (py_str no_str value) = Some "(555) 123-4567".
Proof.
  apply (proj1 (purchased_contacts_are_key_driven no_str
                  (JDict [("results", JList [JDict [("Tel", JStr "555-000-1111");
                                                    ("HomePhone", JStr "1 (555) 123-4567")]])])
                  "(555) 123-4567")).
  vm_compute. apply list_elem_of_here.
Defined.

(** ** The older script: where the person key goes *)

Lemma dict_get_set_eq key v d : dict_get key (Finder.dict_set key v d) = Some v.
Proof.
  induction d as [|[k x] d IH]; cbn; [by rewrite String.eqb_refl|].
  destruct (String.eqb k key) eqn:E; cbn; rewrite E; [done|exact IH].
Qed.

Lemma dict_get_set_ne key key' v d :
  key <> key' -> dict_get key' (Finder.dict_set key v d) = dict_get key' d.
Proof.
  intros Hne. induction d as [|[k x] d IH]; cbn.
  - apply String.eqb_neq in Hne. by rewrite Hne.
  - destruct (String.eqb k key) eqn:E; cbn.
    + apply String.eqb_eq in E as ->. apply String.eqb_neq in Hne. by rewrite Hne.
    + by rewrite IH.
Qed.

Lemma add_person_keys_last fields result init last :
  NoDup fields ->
  exists last',
    Finder.add_person_keys fields result (init ++ [last]) = init ++ [last'] /\
    (forall f v, f ∈ fields -> Finder.truthy_field f result = Some v ->
                 dict_get f last' = Some v) /\
    (forall f, f ∉ fields -> dict_get f last' = dict_get f last).
Proof.
  intros Hnodup. revert last.
  induction fields as [|field fields IH]; intros last.
  { exists last. split; [done|]. split; [by intros ? ? ?%elem_of_nil|done]. }
  apply NoDup_cons in Hnodup as [Hfresh Hnodup]. cbn [Finder.add_person_keys].
  destruct (Finder.truthy_field field result) as [v|] eqn:Hfield.
  - rewrite reverse_app, reverse_singleton. cbn [app]. rewrite reverse_involutive.
    destruct (IH Hnodup (Finder.dict_set field v last)) as (last' & -> & Hset & Hkeep).
    exists last'. split; [done|]. split.
    + intros f v' [->|Hin]%elem_of_cons Hf; [|by eauto].
      rewrite (Hkeep field Hfresh), dict_get_set_eq. congruence.
    + intros f Hf. apply not_elem_of_cons in Hf as [Hne Hf].
      rewrite (Hkeep f Hf). by apply dict_get_set_ne.
  - destruct (IH Hnodup last) as (last' & -> & Hset & Hkeep).
    exists last'. split; [done|]. split.
    + intros f v' [->|Hin]%elem_of_cons Hf; [congruence|by eauto].
    + intros f Hf. apply not_elem_of_cons in Hf as [_ Hf]. by apply Hkeep.
Qed.

Lemma first_truthy_field_found fields d f v :
  f ∈ fields -> Finder.truthy_field f d = Some v ->
  is_Some (Finder.first_truthy_field fields d).
Proof.
  induction fields as [|field fields IH]; [by intros ?%elem_of_nil|].
  intros [->|Hin]%elem_of_cons Hf; cbn [Finder.first_truthy_field].
  - by rewrite Hf.
  - destruct (Finder.truthy_field field d); [done|eauto].
Qed.

(** X19. When a property result carries a person key (any of the seven key
    fields, with a truthy value), the key is written into the last owner
    collected so far and into no other: the owners before the last are
    left as they are, the last owner keeps its other fields, and the phone
    lookup for it finds a key and issues its request. *)
Theorem person_key_goes_to_last_owner {World : Type}
    (send : World -> Request -> World * Response) (str_of_value : json -> string)
    (result : Finder.dict) (init : list Finder.dict) (last : Finder.dict)
    (field : string) (v : json) (w : World) :
  field ∈ Finder.person_key_fields ->
  Finder.truthy_field field result = Some v ->
  exists last',
    Finder.add_person_keys Finder.person_key_fields result (init ++ [last]) = init ++ [last'] /\
    dict_get field last' = Some v /\
    (forall f, f ∉ Finder.person_key_fields -> dict_get f last' = dict_get f last) /\
    exists person_key,
      trace (Finder.get_owner_phones send str_of_value last' w)
      = [mkRequest POST (PersonPhoneLower person_key) 1 []].
Proof.
  intros Hin Hfield.
  assert (NoDup Finder.person_key_fields) as Hnodup by (apply NoDup_ListNoDup; repeat constructor;
    cbn; intuition discriminate).
  destruct (add_person_keys_last Finder.person_key_fields result init last Hnodup)
    as (last' & Heq & Hset & Hkeep).
  exists last'. split; [done|]. split; [by eauto|]. split; [done|].
  assert (Finder.truthy_field field last' = Some v) as Hlast.
  { unfold Finder.truthy_field in *. rewrite (Hset field v Hin Hfield).
    destruct (dict_get field result) as [x|]; [|done].
    destruct (truthy x) eqn:E; [|done]. injection Hfield as ->. by rewrite E. }
  destruct (first_truthy_field_found _ _ _ _ Hin Hlast) as [pk Hpk].
  exists pk. unfold Finder.get_owner_phones. rewrite Hpk.
  by rewrite io_bind_run, http_run.
Qed.

Lemma person_key_goes_to_last_owner_witness :
  exists last',
    Finder.add_person_keys Finder.person_key_fields
      [("Owner", JList [JStr "Ann Lee"; JStr "Bo Lee"]); ("PersonKey", JStr "P1")]
      ([[("Name", JStr "Ann Lee")]] ++ [[("Name", JStr "Bo Lee")]])
    = [[("Name", JStr "Ann Lee")]] ++ [last'] /\
    dict_get "PersonKey" last' = Some (JStr "P1") /\
    (forall f, f ∉ Finder.person_key_fields ->
               dict_get f last' = dict_get f [("Name", JStr "Bo Lee")]) /\
    exists person_key,
      trace (Finder.get_owner_phones scripted no_str last' [])
      = [mkRequest POST (PersonPhoneLower person_key) 1 []].
Proof.
  apply (person_key_goes_to_last_owner scripted no_str
           [("Owner", JList [JStr "Ann Lee"; JStr "Bo Lee"]); ("PersonKey", JStr "P1")]
           [[("Name", JStr "Ann Lee")]] [("Name", JStr "Bo Lee")] "PersonKey" (JStr "P1") []).
  - apply list_elem_of_here.
  - reflexivity.
Defined.

Lemma report_aggregates_owner_contacts_witness :
  exists record,
    [mkReport "12 Oak Ave, Reno, NV 89501"
       [mkOwnerDetail (JStr "Ann Lee") (JStr "P1") ["(555) 123-4567"] [] 0 0]
       ["(555) 123-4567"] [] "Success"]
    = [] ++ [record] /\
    NoDup (phones record) /\ NoDup (emails record) /\
    (forall x, x ∈ phones record <->
               exists detail, detail ∈ owners record /\ x ∈ detail_phones detail) /\
    (forall x, x ∈ emails record <->
               exists detail, detail ∈ owners record /\ x ∈ detail_emails detail).
Proof.
  apply (report_aggregates_owner_contacts scripted no_str no_float float_of_double true []
           (mkItem "1" "12 Oak Ave, Reno, NV 89501" [])
           [Answer 200 "ok" (Some (JDict [("results", JList [JDict [("RadarID", JStr "R9")]])]));
            Answer 200 "ok" (Some (JDict [("results",
               JList [JDict [("PersonKey", JStr "P1"); ("Name", JStr "Ann Lee")]])]));
            Answer 200 "ok" (Some (JDict [("Phone", JStr "555-123-4567")]))]).
  vm_compute. reflexivity.
Defined.

(** ** The summary of a run *)

Lemma filter_length_le {A} (f g : A -> bool) (l : list A) :
  (forall x, f x = true -> g x = true) ->
  (length (List.filter f l) <= length (List.filter g l))%nat.
Proof.
  intros Hfg. induction l as [|x l IH]; [done|]. cbn [List.filter].
  destruct (f x) eqn:Hf.
  - rewrite (Hfg x Hf). cbn. lia.
  - destruct (g x); cbn; lia.
Qed.

Lemma filter_length_total {A} (f : A -> bool) (l : list A) :
  (length (List.filter f l) <= length l)%nat.
Proof. induction l as [|x l IH]; [done|]. cbn. destruct (f x); cbn; lia. Qed.

Lemma with_phones_le_total_phones results :
  (addresses_with_phones results <= total_phones results)%nat.
Proof.
  unfold addresses_with_phones, total_phones.
  induction results as [|r results IH]; [done|]. cbn.
  destruct (phones r); cbn; lia.
Qed.

Section SummaryFacts.
Context {World : Type}.
Variable send : World -> Request -> World * Response.
Variable str_of_value : json -> string.
Variable float_of_string : string -> option Q.
Variable float_of_number : Q -> option Q.

Lemma main_loop_records use_paid_search items : forall results w results',
  value (main_loop send str_of_value float_of_string float_of_number use_paid_search results items w)
  = Some results' ->
  exists new,
    results' = results ++ new /\ length new = length items /\
    Forall (fun record =>
              status record = "Success" <-> phones record <> [] \/ emails record <> []) new.
Proof.
  induction items as [|item items IH]; intros results w results'.
  { cbn. intros [= <-]. exists []. by rewrite app_nil_r. }
  rewrite main_loop_cons. cbv zeta.
  destruct (value (main_step _ _ _ _ _ _ _ _)) as [rs|] eqn:Hstep; [|done].
  apply main_step_record in Hstep as (record & -> & _ & Hiff & _).
  cbn [value]. intros (new & -> & Hlen & Hall)%IH.
  exists (record :: new). rewrite <- app_assoc. cbn. split; [done|]. split; [lia|].
  by constructor.
Qed.
End SummaryFacts.

(** X17. The counts of the final summary of a run of [main] that does not
    raise: there is one address per board item; the addresses counted
    "with contact info" are exactly the records with status "Success";
    the addresses with phones, and those with emails, are among them; and
    the total of phone numbers is at least the number of addresses with
    phones. *)
Theorem summary_counts {World : Type}
    (send : World -> Request -> World * Response)
    (str_of_value : json -> string) (float_of_string : string -> option Q)
    (float_of_number : Q -> option Q)
    (items : list Item) (w : World) (results : list ReportRecord) :
  value (main send str_of_value float_of_string float_of_number items w) = Some results ->
  total_addresses results = length items /\
  addresses_with_contact results
  = length (List.filter (fun r => String.eqb (status r) "Success") results) /\
  (addresses_with_phones results <= addresses_with_contact results)%nat /\
  (addresses_with_emails results <= addresses_with_contact results)%nat /\
  (addresses_with_contact results <= addresses_with_phones results
                                     + addresses_with_emails results)%nat /\
  (addresses_with_contact results <= total_addresses results)%nat /\
  (addresses_with_phones results <= total_phones results)%nat.
Proof.
  unfold main. intros (new & -> & Hlen & Hall)%main_loop_records. cbn [app].
  split; [done|]. split.
  { unfold addresses_with_contact. f_equal. apply List.filter_ext_in.
    intros r Hr. rewrite Forall_forall in Hall. apply list_elem_of_In in Hr.
    specialize (Hall r Hr). rewrite <- !nonempty_spec in Hall.
    destruct (String.eqb_spec (status r) "Success") as [Hs|Hs];
      destruct (nonempty (phones r)), (nonempty (emails r)); cbn; intuition congruence. }
  split; [apply filter_length_le; intros r ->; done|].
  split; [apply filter_length_le; intros r ->; apply orb_true_r|].
  split.
  { unfold addresses_with_contact, addresses_with_phones, addresses_with_emails.
    clear. induction new as [|r new IH]; [done|]. cbn [List.filter].
    destruct (nonempty (phones r)), (nonempty (emails r)); cbn; lia. }
  split; [apply filter_length_total|apply with_phones_le_total_phones].
Qed.

Lemma summary_counts_witness :
  let results := [mkReport "No address" [] [] [] "No address";
                  mkReport "12 Oak Ave, Reno, NV 89501" [] [] [] "No property data"] in
  total_addresses results = 2%nat /\
  addresses_with_contact results
  = length (List.filter (fun r => String.eqb (status r) "Success") results).
Proof.
  intros results.
  destruct (summary_counts scripted no_str no_float float_of_double
              [mkItem "1" "New address" []; mkItem "2" "12 Oak Ave, Reno, NV 89501" []]
              [Answer 500 "error" None] results) as (H1 & H2 & _).
  - vm_compute. reflexivity.
  - split; [exact H1|exact H2].
Defined.
